(** * Radioactive_Shielding_Optimizer: attenuation model, Monte Carlo
      validator, single-material solver and two-material grid optimizer.

    The development embeds the functions of
    [Radioactive Decay Sim/Radioactive_Shielding_Optimizer.py].

    Numbers.  The program computes with IEEE binary64 values (Python
    [float], [numpy.float64]).  They are modelled here by [float64]: a
    finite value is an exact real number, next to the three special
    values the program can produce (+inf, -inf, nan).  Rounding,
    overflow, underflow to zero and the sign of zero are not modelled;
    every statement below is about this exact-arithmetic reading of the
    code. *)

From Stdlib Require Import Reals Lra Lia ZArith String Bool List Sorted.
Import ListNotations.

Open Scope R_scope.

(** ** Decidable comparisons on the reals, as booleans *)

Definition Rleb (a b : R) : bool := if Rle_dec a b then true else false.
Definition Rltb (a b : R) : bool := if Rlt_dec a b then true else false.
Definition Reqb (a b : R) : bool := if Req_dec_T a b then true else false.

(** ** The numeric type *)

Inductive float64 : Type :=
| Fin (r : R)
| PInf
| NInf
| NaN.

Module F.

Definition is_nan (x : float64) : bool :=
  match x with NaN => true | _ => false end.

Definition is_finite (x : float64) : bool :=
  match x with Fin _ => true | _ => false end.

(** unary minus *)
Definition neg (x : float64) : float64 :=
  match x with
  | Fin r => Fin (- r)
  | PInf => NInf
  | NInf => PInf
  | NaN => NaN
  end.

Definition add (x y : float64) : float64 :=
  match x, y with
  | NaN, _ | _, NaN => NaN
  | Fin a, Fin b => Fin (a + b)
  | PInf, NInf | NInf, PInf => NaN
  | PInf, _ | _, PInf => PInf
  | NInf, _ | _, NInf => NInf
  end.

Definition sub (x y : float64) : float64 := add x (neg y).

(** the infinity whose sign is the sign of [r]; nan for [r = 0] *)
Definition signed_inf (r : R) : float64 :=
  if Rltb 0 r then PInf else if Rltb r 0 then NInf else NaN.

Definition mul (x y : float64) : float64 :=
  match x, y with
  | NaN, _ | _, NaN => NaN
  | Fin a, Fin b => Fin (a * b)
  | Fin a, PInf | PInf, Fin a => signed_inf a
  | Fin a, NInf | NInf, Fin a => signed_inf (- a)
  | PInf, PInf | NInf, NInf => PInf
  | PInf, NInf | NInf, PInf => NInf
  end.

(** numpy's true division: a zero divisor gives an infinity or nan
    (with a RuntimeWarning), never an exception *)
Definition div (x y : float64) : float64 :=
  match x, y with
  | NaN, _ | _, NaN => NaN
  | Fin a, Fin b => if Reqb b 0 then signed_inf a else Fin (a / b)
  | Fin _, PInf | Fin _, NInf => Fin 0
  | PInf, Fin b => if Rltb b 0 then NInf else PInf
  | NInf, Fin b => if Rltb b 0 then PInf else NInf
  | PInf, PInf | PInf, NInf | NInf, PInf | NInf, NInf => NaN
  end.

(** numpy.exp *)
Definition exp (x : float64) : float64 :=
  match x with
  | Fin r => Fin (Rtrigo_def.exp r)
  | PInf => PInf
  | NInf => Fin 0
  | NaN => NaN
  end.

(** numpy.log: -inf at zero, nan below zero (warnings, no exception) *)
Definition log (x : float64) : float64 :=
  match x with
  | Fin r => if Rltb 0 r then Fin (ln r)
             else if Reqb r 0 then NInf else NaN
  | PInf => PInf
  | NInf => NaN
  | NaN => NaN
  end.

(** numpy.sqrt *)
Definition sqrt (x : float64) : float64 :=
  match x with
  | Fin r => if Rleb 0 r then Fin (R_sqrt.sqrt r) else NaN
  | PInf => PInf
  | NInf => NaN
  | NaN => NaN
  end.

(** [x <= y]; False as soon as one side is nan *)
Definition leb (x y : float64) : bool :=
  match x, y with
  | NaN, _ | _, NaN => false
  | Fin a, Fin b => Rleb a b
  | NInf, _ => true
  | _, PInf => true
  | _, _ => false
  end.

(** [x < y]; False as soon as one side is nan *)
Definition ltb (x y : float64) : bool :=
  match x, y with
  | NaN, _ | _, NaN => false
  | Fin a, Fin b => Rltb a b
  | PInf, _ => false
  | _, NInf => false
  | _, PInf => true
  | NInf, _ => true
  end.

(** [x > y] *)
Definition gtb (x y : float64) : bool := ltb y x.

Definition of_Z (n : Z) : float64 := Fin (IZR n).
Definition of_nat (n : nat) : float64 := Fin (INR n).

End F.

Declare Scope float64_scope.
Delimit Scope float64_scope with f64.
Bind Scope float64_scope with float64.
Infix "+" := F.add : float64_scope.
Infix "-" := F.sub : float64_scope.
Infix "*" := F.mul : float64_scope.
Infix "/" := F.div : float64_scope.
Notation "- x" := (F.neg x) : float64_scope.
Infix "<=?" := F.leb (at level 70, no associativity) : float64_scope.
Infix "<?" := F.ltb (at level 70, no associativity) : float64_scope.
Infix ">?" := F.gtb (at level 70, no associativity) : float64_scope.

(** ** Exceptions *)

Inductive exn : Type :=
| ValueError (msg : string)
| KeyError (key : string)
| IndexError (msg : string).

Inductive result (A : Type) : Type :=
| Ok (a : A)
| Raise (e : exn).
Arguments Ok {A} a.
Arguments Raise {A} e.

Definition bind {A B : Type} (m : result A) (k : A -> result B) : result B :=
  match m with
  | Ok a => k a
  | Raise e => Raise e
  end.

Notation "x <- m ;; k" := (bind m (fun x => k))
  (at level 61, m at next level, right associativity).

Definition raises {A : Type} (m : result A) : Prop :=
  exists e, m = Raise e.

Definition returns {A : Type} (m : result A) : Prop :=
  exists a, m = Ok a.

(** ** Materials: the dict keys the program reads *)

Record material : Type := Material {
  name : string;
  density : option float64;
  mu_mass : option float64;
  mu_lin : option float64
}.

(** [material.get('density', 1.0)] *)
Definition get_density (m : material) : float64 :=
  match density m with
  | Some d => d
  | None => Fin 1
  end.

(** ** Utility / physics functions *)

Open Scope float64_scope.

Definition linear_mu_from_mass (mu_mass density : float64) : float64 :=
  mu_mass * density.

Definition transmission_exponential (mu_lin thickness : float64) : float64 :=
  F.exp (- mu_lin * thickness).

Definition required_thickness_for_target (mu_lin target_fraction : float64)
  : result float64 :=
  if target_fraction <=? Fin 0
  then Raise (ValueError "target_fraction must be > 0")
  else Ok (- F.log target_fraction / mu_lin).

(** ** Simple single-material optimizer *)

Definition single_material_solution (m : material) (target_fraction : float64)
  : result (float64 * float64 * float64) :=
  mu <- match mu_lin m, mu_mass m, density m with
        | Some mu, _, _ => Ok mu
        | None, Some mm, Some d => Ok (linear_mu_from_mass mm d)
        | None, _, _ =>
            Raise (ValueError
              "Material must include 'mu_lin' or ('mu_mass' and 'density')")
        end ;;
  thickness <- required_thickness_for_target mu target_fraction ;;
  let areal_density := get_density m * thickness in
  Ok (thickness, areal_density, transmission_exponential mu thickness).

(** ** The numpy array operations the program uses, on lists *)

Module Np.

(** replace the last element *)
Definition set_last {A : Type} (xs : list A) (v : A) : list A :=
  match xs with
  | [] => []
  | _ :: _ => removelast xs ++ [v]
  end.

(** [numpy.linspace(start, stop, num)] with the default [endpoint=True]:
    [num] samples [i * step + start], [step = (stop - start) / (num - 1)],
    the last one set to [stop]; a negative [num] is a ValueError.  (numpy
    takes another route when [step] is zero; in exact arithmetic both
    routes give the same samples.) *)
Definition linspace (start stop : float64) (num : Z) : result (list float64) :=
  if (num <? 0)%Z
  then Raise (ValueError "Number of samples must be non-negative")
  else
    let div := (num - 1)%Z in
    let delta := stop - start in
    let y := map F.of_nat (seq 0 (Z.to_nat num)) in
    let y := if (0 <? div)%Z
             then map (fun v => v * (delta / F.of_Z div) + start) y
             else map (fun v => v * delta + start) y in
    Ok (if (1 <? num)%Z then set_last y stop else y).

(** The state of numpy's global generator is the sequence of uniform
    variates it will deliver next.

    [numpy.random.seed(seed)] for an integer seed puts the generator in the
    state that belongs to the seed ([seeding] gives it); a seed outside
    [0, 2**32 - 1] is a ValueError and leaves the state alone. *)
Definition random_seed (seeding : Z -> nat -> R) (seed : Z)
  : result (nat -> R) :=
  if ((seed <? 0)%Z || (2 ^ 32 - 1 <? seed)%Z)%bool
  then Raise (ValueError "Seed must be between 0 and 2**32 - 1")
  else Ok (seeding seed).

(** [numpy.random.random(N)] in the generator state [st]: the next [N]
    variates and the state advanced past them; a ValueError for a
    negative [N] *)
Definition random_random (st : nat -> R) (N : Z)
  : result (list float64 * (nat -> R)) :=
  if (N <? 0)%Z
  then Raise (ValueError "negative dimensions are not allowed")
  else Ok (map (fun i => Fin (st i)) (seq 0 (Z.to_nat N)),
           fun i => st (Z.to_nat N + i)%nat).

(** [numpy.any] of a boolean array *)
Definition any (mask : list bool) : bool := existsb (fun b => b) mask.

(** [numpy.sum] of a boolean array *)
Definition sum_bool (mask : list bool) : nat :=
  length (filter (fun b => b) mask).

(** boolean-mask indexing [xs[mask]] *)
Fixpoint select {A : Type} (mask : list bool) (xs : list A) : list A :=
  match mask, xs with
  | m :: mask', x :: xs' =>
      if m then x :: select mask' xs' else select mask' xs'
  | _, _ => []
  end.

(** [numpy.argmin]: index of the first minimum; a nan counts as the
    minimum (the first nan wins) *)
Fixpoint argmin_from (xs : list float64) (i best_i : nat) (best : float64)
  : nat :=
  match xs with
  | [] => best_i
  | x :: xs' =>
      if negb (F.is_nan best) && (F.is_nan x || (x <? best))
      then argmin_from xs' (S i) i x
      else argmin_from xs' (S i) best_i best
  end.

Definition argmin (xs : list float64) : result nat :=
  match xs with
  | [] => Raise (ValueError "attempt to get argmin of an empty sequence")
  | x :: xs' => Ok (argmin_from xs' 1 0 x)
  end.

(** [xs[i]] *)
Definition getitem {A : Type} (xs : list A) (i : nat) : result A :=
  match nth_error xs i with
  | Some v => Ok v
  | None => Raise (IndexError "index out of bounds")
  end.

End Np.

(** ** Monte Carlo validator *)

(** the state of the process-wide generator: the variates still to come *)
Definition rng_state : Type := nat -> R.

(** [mc_transmission] reads and writes the global generator: it takes the
    state [st] the generator is in and returns, next to its result or
    exception, the state it leaves behind.  [seeding] is numpy's map from
    seeds to generator states. *)
Definition mc_transmission (seeding : Z -> rng_state) (st : rng_state)
    (mu_lin thickness : float64) (N : Z) (seed : option Z)
  : result (float64 * float64) * rng_state :=
  match (match seed with
         | Some sd => Np.random_seed seeding sd
         | None => Ok st
         end) with
  | Raise e => (Raise e, st)
  | Ok st1 =>
      match Np.random_random st1 N with
      | Raise e => (Raise e, st1)
      | Ok (U, st2) =>
          let s := map (fun u => - F.log u / mu_lin) U in
          let transmitted :=
            F.of_nat (Np.sum_bool (map (fun x => x >? thickness) s))
            / F.of_Z N in
          let se :=
            F.sqrt (transmitted * (Fin 1 - transmitted) / F.of_Z N) in
          (Ok (transmitted, se), st2)
      end
  end.

(** ** Two-material brute-force optimizer *)

Record design : Type := Design {
  t1_cm : float64;
  t2_cm : float64;
  areal_density_g_per_cm2 : float64;
  transmission : float64
}.

Definition getkey (key : string) (field : option float64) : result float64 :=
  match field with
  | Some v => Ok v
  | None => Raise (KeyError key)
  end.

Definition mu_lin_from (mat : material) : result float64 :=
  match mu_lin mat with
  | Some mu => Ok mu
  | None =>
      mm <- getkey "mu_mass" (mu_mass mat) ;;
      d <- getkey "density" (density mat) ;;
      Ok (linear_mu_from_mass mm d)
  end.

(** the loop state: [best] and [best_details] *)
Definition search_state : Type := (option float64 * option design)%type.

Section GridSearch.

Variables mu1 mu2 rho1 rho2 target_fraction : float64.
Variable t2_vals : list float64.

(** one pass of the [for t1 in t1_vals] loop body *)
Definition search_row (st : search_state) (t1 : float64)
  : result search_state :=
  let trans1 := F.exp (- mu1 * t1) in
  let trans2 := map (fun t2 => F.exp (- mu2 * t2)) t2_vals in
  let total_trans := map (fun x => trans1 * x) trans2 in
  let mask_ok := map (fun x => x <=? target_fraction) total_trans in
  if negb (Np.any mask_ok) then Ok st
  else
    let areal := map (fun t2 => rho1 * t1 + rho2 * t2) t2_vals in
    let areal_ok := Np.select mask_ok areal in
    let t2_ok := Np.select mask_ok t2_vals in
    let trans_ok := Np.select mask_ok total_trans in
    idx <- Np.argmin areal_ok ;;
    this_best_areal <- Np.getitem areal_ok idx ;;
    this_best_t2 <- Np.getitem t2_ok idx ;;
    this_best_trans <- Np.getitem trans_ok idx ;;
    let improves :=
      match fst st with
      | None => true
      | Some best => this_best_areal <? best
      end in
    if improves
    then Ok (Some this_best_areal,
             Some {| t1_cm := t1;
                     t2_cm := this_best_t2;
                     areal_density_g_per_cm2 := this_best_areal;
                     transmission := this_best_trans |})
    else Ok st.

Fixpoint search (t1_vals : list float64) (st : search_state)
  : result search_state :=
  match t1_vals with
  | [] => Ok st
  | t1 :: rest => st' <- search_row st t1 ;; search rest st'
  end.

End GridSearch.

Definition optimize_two_materials (mat1 mat2 : material)
    (target_fraction max_thickness1 max_thickness2 : float64)
    (steps1 steps2 : Z) : result (option design) :=
  mu1 <- mu_lin_from mat1 ;;
  mu2 <- mu_lin_from mat2 ;;
  let rho1 := get_density mat1 in
  let rho2 := get_density mat2 in
  t1_vals <- Np.linspace (Fin 0) max_thickness1 steps1 ;;
  t2_vals <- Np.linspace (Fin 0) max_thickness2 steps2 ;;
  st <- search mu1 mu2 rho1 rho2 target_fraction t2_vals t1_vals (None, None) ;;
  Ok (snd st).

(** ** Vocabulary of the statements *)

(** the linear coefficient the solvers work with: the 'mu_lin' entry when
    the material has one, else 'mu_mass' times 'density' *)
Definition has_linear_coefficient (m : material) (mu : float64) : Prop :=
  mu_lin m = Some mu
  \/ (mu_lin m = None
      /\ exists mm d, mu_mass m = Some mm /\ density m = Some d
                      /\ mu = linear_mu_from_mass mm d).

(** transmission of layer 1 then layer 2, as the optimizer computes it *)
Definition combined_transmission (mu1 mu2 t1 t2 : float64) : float64 :=
  F.exp (- mu1 * t1) * F.exp (- mu2 * t2).

(** total areal density, as the optimizer computes it *)
Definition areal_density (rho1 rho2 t1 t2 : float64) : float64 :=
  rho1 * t1 + rho2 * t2.

(** the mask [total_trans <= target_fraction] at one grid pair *)
Definition feasible (mu1 mu2 target_fraction t1 t2 : float64) : bool :=
  combined_transmission mu1 mu2 t1 t2 <=? target_fraction.

(** the design the optimizer records for the grid pair (t1, t2) *)
Definition candidate (mu1 mu2 rho1 rho2 t1 t2 : float64) : design :=
  {| t1_cm := t1;
     t2_cm := t2;
     areal_density_g_per_cm2 := areal_density rho1 rho2 t1 t2;
     transmission := combined_transmission mu1 mu2 t1 t2 |}.

(** the update [if (best is None) or (this_best_areal < best)] *)
Definition accept (st : search_state) (d : design) : search_state :=
  if match fst st with
     | None => true
     | Some best => areal_density_g_per_cm2 d <? best
     end
  then (Some (areal_density_g_per_cm2 d), Some d)
  else st.

(** what the loop state can be: nothing yet, or the candidate of a
    feasible grid pair *)
Definition shaped (mu1 mu2 rho1 rho2 target_fraction : float64)
    (t2_vals : list float64) (st : search_state) : Prop :=
  st = (None, None)
  \/ exists a b,
       In b t2_vals
       /\ feasible mu1 mu2 target_fraction a b = true
       /\ st = (Some (areal_density rho1 rho2 a b),
                Some (candidate mu1 mu2 rho1 rho2 a b)).

(** the loop invariant after the rows [done]: either no row had a feasible
    pair, or the state holds the candidate (a0, b0), least over all feasible
    pairs of the rows done, strictly below every feasible pair of an earlier
    row and of an earlier feasible position in its own row *)
Definition search_invariant (mu1 mu2 rho1 rho2 target_fraction : float64)
    (t2_vals done : list float64) (st : search_state) : Prop :=
  (st = (None, None)
   /\ forall a b, In a done -> In b t2_vals ->
                  feasible mu1 mu2 target_fraction a b = false)
  \/ exists P1 a0 P2 F1 b0 F2,
       done = P1 ++ a0 :: P2
       /\ filter (feasible mu1 mu2 target_fraction a0) t2_vals = F1 ++ b0 :: F2
       /\ st = (Some (areal_density rho1 rho2 a0 b0),
                Some (candidate mu1 mu2 rho1 rho2 a0 b0))
       /\ (forall a b, In a done -> In b t2_vals ->
              feasible mu1 mu2 target_fraction a b = true ->
              (areal_density rho1 rho2 a0 b0
                 <=? areal_density rho1 rho2 a b) = true)
       /\ (forall a b, In a P1 -> In b t2_vals ->
              feasible mu1 mu2 target_fraction a b = true ->
              (areal_density rho1 rho2 a0 b0
                 <? areal_density rho1 rho2 a b) = true)
       /\ (forall b, In b F1 ->
              (areal_density rho1 rho2 a0 b0
                 <? areal_density rho1 rho2 a0 b) = true).

(** the spacing of [linspace(0, m, num)] *)
Definition grid_step (m : R) (num : Z) : R :=
  if (1 <? num)%Z then (m / IZR (num - 1))%R else 0%R.

(** the samples of [linspace(0, m, num)] for a finite [m] *)
Definition grid_points (m : R) (num : Z) : list float64 :=
  map (fun i => Fin (INR i * grid_step m num)) (seq 0 (Z.to_nat num)).

(** ascending order of a grid *)
Definition ascending (l : list float64) : Prop :=
  StronglySorted (fun x y => (x <=? y) = true) l.

(** ** Example materials *)

(** the 'lead' entry of the program's material table *)
Definition lead : material :=
  {| name := "Lead"; density := Some (Fin 11.34);
     mu_mass := Some (Fin 0.044); mu_lin := None |}.

(** a material given by its linear coefficient only *)
Definition steel : material :=
  {| name := "Steel"; density := None; mu_mass := None;
     mu_lin := Some (Fin 0.12) |}.

(** a material given by its linear coefficient 0.125 and density 1.0 *)
Definition absorber : material :=
  {| name := "Absorber"; density := Some (Fin 1); mu_mass := None;
     mu_lin := Some (Fin (1/8)) |}.

(** materials given by a linear coefficient: one without density, one of
    density 2.0, one of density 0.0 *)
Definition bare : material :=
  {| name := "Bare"; density := None; mu_mass := None;
     mu_lin := Some (Fin (1/8)) |}.

Definition dense : material :=
  {| name := "Dense"; density := Some (Fin 2); mu_mass := None;
     mu_lin := Some (Fin (1/8)) |}.

Definition weightless : material :=
  {| name := "Weightless"; density := Some (Fin 0); mu_mass := None;
     mu_lin := Some (Fin (1/8)) |}.

(** ** The material table and its precomputation *)

(** the 'concrete' and 'water' entries of the program's material table *)
Definition concrete : material :=
  {| name := "Concrete"; density := Some (Fin 2.3);
     mu_mass := Some (Fin 0.035); mu_lin := None |}.

Definition water : material :=
  {| name := "Water"; density := Some (Fin 1.0);
     mu_mass := Some (Fin 0.034); mu_lin := None |}.

(** the dict [materials], in insertion order *)
Definition materials : list (string * material) :=
  [("lead"%string, lead); ("concrete"%string, concrete);
   ("water"%string, water)].

(** the body of the loop "Precompute mu_lin for convenience":
    [if 'mu_lin' not in m: m['mu_lin'] = linear_mu_from_mass(...)] *)
Definition precompute_mu_lin (m : material) : result material :=
  match mu_lin m with
  | Some _ => Ok m
  | None =>
      mm <- getkey "mu_mass" (mu_mass m) ;;
      d <- getkey "density" (density m) ;;
      Ok {| name := name m; density := density m; mu_mass := mu_mass m;
            mu_lin := Some (linear_mu_from_mass mm d) |}
  end.

(** [for m in materials.values(): ...] *)
Fixpoint precompute_table (table : list (string * material))
  : result (list (string * material)) :=
  match table with
  | [] => Ok []
  | (key, m) :: rest =>
      m' <- precompute_mu_lin m ;;
      rest' <- precompute_table rest ;;
      Ok ((key, m') :: rest')
  end.

(** ** Vocabulary for the Monte Carlo validator *)

(** a seed numpy accepts: none, or an integer of [0, 2**32 - 1] *)
Definition valid_seed (seed : option Z) : Prop :=
  match seed with
  | Some sd => (0 <= sd <= 2 ^ 32 - 1)%Z
  | None => True
  end.

(** the generator state the samples are drawn from: the seeded one when a
    seed is given, else the state the generator was in *)
Definition state_in_use (seeding : Z -> rng_state) (st : rng_state)
    (seed : option Z) : rng_state :=
  match seed with
  | Some sd => seeding sd
  | None => st
  end.

(** the sampled path lengths [s = -ln(U) / mu_lin] of a run with [N >= 0] *)
Definition path_lengths (st : rng_state) (mu_lin : float64) (N : Z)
  : list float64 :=
  map (fun u => - F.log u / mu_lin)
      (map (fun i => Fin (st i)) (seq 0 (Z.to_nat N))).

(** [np.sum(s > thickness)] *)
Definition transmitted_count (st : rng_state) (mu_lin thickness : float64)
    (N : Z) : nat :=
  Np.sum_bool (map (fun x => x >? thickness) (path_lengths st mu_lin N)).

(** a record with a name only: no coefficient, no density *)
Definition unspecified : material :=
  {| name := "Unspecified"; density := None; mu_mass := None;
     mu_lin := None |}.

(** ** Decay_sim.py and Point_Kinetics_Sim.py: the right-hand sides *)

(** [fission_prod_chain(y, t, lambda_a, lambda_b)]; the module-level source
    rate [s_a] it reads is a parameter.  [na, nb, nc = y] needs exactly
    three values. *)
Definition fission_prod_chain (s_a : float64) (y : list float64)
    (t lambda_a lambda_b : float64) : result (list float64) :=
  match y with
  | [na; nb; nc] =>
      let dnadt := s_a + (- lambda_a * na) in
      let dnbdt := lambda_a * na - lambda_b * nb in
      let dncdt := lambda_b * nb in
      Ok [dnadt; dnbdt; dncdt]
  | _ => Raise (ValueError "wrong number of values to unpack")
  end.

(** an elementwise operation on two one-dimensional arrays, with numpy's
    broadcasting: equal lengths, or one operand of length 1 *)
Definition broadcast2 (op : float64 -> float64 -> float64)
    (xs ys : list float64) : result (list float64) :=
  if (length xs =? length ys)%nat
  then Ok (map (fun p => op (fst p) (snd p)) (combine xs ys))
  else match xs, ys with
       | [x], _ => Ok (map (fun y => op x y) ys)
       | _, [y] => Ok (map (fun x => op x y) xs)
       | _, _ =>
           Raise (ValueError "operands could not be broadcast together")
       end.

(** [numpy.sum] of a one-dimensional array (in exact arithmetic the order
    of summation does not matter) *)
Definition np_sum (xs : list float64) : float64 :=
  fold_left F.add xs (Fin 0).

(** [point_kinetics(y, t, rho, beta_i, lambda_i, Lambda, S)] *)
Definition point_kinetics (y : list float64) (t rho : float64)
    (beta_i lambda_i : list float64) (Lambda S : float64)
  : result (list float64) :=
  match y with
  | [] => Raise (IndexError "index 0 is out of bounds")
  | n :: C =>
      let beta := np_sum beta_i in
      lc <- broadcast2 F.mul lambda_i C ;;
      let dn_dt := ((rho - beta) / Lambda) * n + np_sum lc + S in
      lc' <- broadcast2 F.mul lambda_i C ;;
      dC_dt <- broadcast2 F.sub (map (fun b => b / Lambda * n) beta_i) lc' ;;
      Ok (dn_dt :: dC_dt)
  end.

(** * Properties *)

(** ** Reflection of the boolean comparisons *)

Lemma Rleb_true (a b : R) : Rleb a b = true <-> (a <= b)%R.
Proof. unfold Rleb; destruct (Rle_dec a b); split; intros; congruence || lra. Qed.

Lemma Rleb_false (a b : R) : Rleb a b = false <-> (b < a)%R.
Proof. unfold Rleb; destruct (Rle_dec a b); split; intros; congruence || lra. Qed.

Lemma Rltb_true (a b : R) : Rltb a b = true <-> (a < b)%R.
Proof. unfold Rltb; destruct (Rlt_dec a b); split; intros; congruence || lra. Qed.

Lemma Rltb_false (a b : R) : Rltb a b = false <-> (b <= a)%R.
Proof. unfold Rltb; destruct (Rlt_dec a b); split; intros; congruence || lra. Qed.

Lemma Reqb_true (a b : R) : Reqb a b = true <-> a = b.
Proof. unfold Reqb; destruct (Req_dec_T a b); split; intros; congruence. Qed.

Lemma Reqb_false (a b : R) : Reqb a b = false <-> a <> b.
Proof. unfold Reqb; destruct (Req_dec_T a b); split; intros; congruence. Qed.

(** rewrite a boolean comparison of reals once its side condition is proved
    by linear arithmetic *)
Ltac rbool :=
  repeat match goal with
  | |- context [Rleb ?a ?b] =>
      first [ rewrite (proj2 (Rleb_true a b)) by lra
            | rewrite (proj2 (Rleb_false a b)) by lra ]
  | |- context [Rltb ?a ?b] =>
      first [ rewrite (proj2 (Rltb_true a b)) by lra
            | rewrite (proj2 (Rltb_false a b)) by lra ]
  | |- context [Reqb ?a ?b] =>
      first [ rewrite (proj2 (Reqb_true a b)) by lra
            | rewrite (proj2 (Reqb_false a b)) by lra ]
  end.

(** evaluate the float64 operations on finite arguments *)
Ltac fcalc :=
  repeat (progress
    (cbn [F.neg F.add F.sub F.mul F.div F.exp F.log F.sqrt F.leb F.ltb F.gtb
          F.of_Z F.of_nat F.is_nan F.is_finite INR];
     unfold F.signed_inf;
     rbool)).

(** evaluate the integer tests and conversions on literals *)
Ltac zcalc :=
  repeat match goal with
  | |- context [Z.ltb ?a ?b] =>
      let v := eval vm_compute in (Z.ltb a b) in
      progress change (Z.ltb a b) with v
  | |- context [Z.to_nat ?a] =>
      let v := eval vm_compute in (Z.to_nat a) in
      progress change (Z.to_nat a) with v
  | |- context [Z.sub ?a ?b] =>
      let v := eval vm_compute in (Z.sub a b) in
      progress change (Z.sub a b) with v
  end.

(** ** Attenuation model *)

Lemma transmission_exponential_Fin (mu t : R) :
  transmission_exponential (Fin mu) (Fin t) = Fin (exp (- mu * t)).
Proof. reflexivity. Qed.

Lemma exp_neg_unit_interval (x : R) : (0 <= x -> 0 < exp (- x) <= 1)%R.
Proof.
  intros Hx; split; [apply exp_pos|].
  rewrite <- exp_0.
  destruct Hx as [Hx | <-].
  - left; apply exp_increasing; lra.
  - rewrite Ropp_0; lra.
Qed.

Lemma required_thickness_raises_iff (mu tg : float64) :
  raises (required_thickness_for_target mu tg) <-> (tg <=? Fin 0) = true.
Proof.
  unfold required_thickness_for_target, raises.
  destruct (tg <=? Fin 0); split; intros H; try congruence.
  - eexists; reflexivity.
  - destruct H as [e H]; discriminate.
Qed.

Lemma required_thickness_Fin (mu tg : R) :
  (0 < tg)%R -> mu <> 0%R ->
  required_thickness_for_target (Fin mu) (Fin tg) = Ok (Fin (- ln tg / mu)).
Proof.
  intros Htg Hmu.
  unfold required_thickness_for_target.
  fcalc. reflexivity.
Qed.

Lemma ln_neg (tg : R) : (0 < tg < 1 -> ln tg < 0)%R.
Proof. intros [H0 H1]. rewrite <- ln_1. apply ln_increasing; lra. Qed.

Lemma ln_nonpos (tg : R) : (0 < tg <= 1 -> ln tg <= 0)%R.
Proof.
  intros [H0 [H1 | ->]].
  - left; apply ln_neg; lra.
  - rewrite ln_1; lra.
Qed.

(** C5, as the code has it: with a zero linear coefficient and a target in
    (0, 1) no error is raised; the quotient [-ln(target) / 0] is returned,
    which is +inf. *)
Theorem required_thickness_zero_coefficient (tg : R) :
  (0 < tg < 1)%R ->
  required_thickness_for_target (Fin 0) (Fin tg) = Ok PInf.
Proof.
  intros Htg. pose proof (ln_neg tg Htg).
  unfold required_thickness_for_target. fcalc. reflexivity.
Qed.

Lemma required_thickness_zero_coefficient_witness :
  (0 < 1/2 < 1)%R /\
  required_thickness_for_target (Fin 0) (Fin (1/2)) = Ok PInf.
Proof.
  split; [lra | apply (required_thickness_zero_coefficient (1/2)); lra].
Defined.

(** C5 fails as stated: at linear coefficient 0 and target 1/2 the call
    does not raise. *)
Lemma required_thickness_zero_coefficient_no_error :
  ~ raises (required_thickness_for_target (Fin 0) (Fin (1/2))).
Proof.
  intros [e He].
  assert (Hln : (ln (1/2) < 0)%R) by (apply ln_neg; lra).
  unfold required_thickness_for_target in He. revert He. fcalc. discriminate.
Qed.

(** ** Single-material solver *)

Lemma mul_one_l (x : float64) : Fin 1 * x = x.
Proof.
  destruct x; cbn [F.mul]; unfold F.signed_inf; rbool; try reflexivity.
  f_equal; ring.
Qed.

Lemma single_material_solution_coefficient (m : material) (mu tg : float64) :
  has_linear_coefficient m mu ->
  single_material_solution m tg =
    (thickness <- required_thickness_for_target mu tg ;;
     Ok (thickness, get_density m * thickness,
         transmission_exponential mu thickness)).
Proof.
  unfold single_material_solution.
  intros [H | [H (mm & d & Hmm & Hd & ->)]].
  - rewrite H. reflexivity.
  - rewrite H, Hmm, Hd. reflexivity.
Qed.

(** C8: for a material with a positive linear coefficient (given or
    derived from the mass coefficient) and a density, and a target in
    (0, 1], [single_material_solution] returns the thickness of
    [required_thickness_for_target] at that coefficient, the areal density
    density * thickness, and an achieved transmission equal to the target. *)
Theorem single_material_solution_spec
    (m : material) (mu tg : R) (rho : float64) :
  has_linear_coefficient m (Fin mu) ->
  density m = Some rho ->
  (0 < mu)%R -> (0 < tg <= 1)%R ->
  exists th,
    required_thickness_for_target (Fin mu) (Fin tg) = Ok (Fin th)
    /\ (0 <= th)%R
    /\ single_material_solution m (Fin tg)
       = Ok (Fin th, rho * Fin th, Fin tg).
Proof.
  intros Hmu Hrho Hpos Htg.
  exists (- ln tg / mu)%R.
  rewrite (single_material_solution_coefficient m (Fin mu)) by assumption.
  rewrite required_thickness_Fin by lra.
  split; [reflexivity | split].
  - pose proof (ln_nonpos tg Htg).
    apply Rmult_le_pos; [lra | left; apply Rinv_0_lt_compat; lra].
  - cbn [bind]. unfold get_density. rewrite Hrho.
    rewrite transmission_exponential_Fin.
    do 3 f_equal.
    replace (- mu * (- ln tg / mu))%R with (ln tg) by (field; lra).
    apply exp_ln; lra.
Qed.

Lemma single_material_solution_spec_witness :
  exists th,
    single_material_solution lead (Fin (1/2))
    = Ok (Fin th, Fin 11.34 * Fin th, Fin (1/2)).
Proof.
  destruct (single_material_solution_spec lead (0.044 * 11.34) (1/2) (Fin 11.34))
    as (th & _ & _ & H).
  - right; split; [reflexivity|].
    exists (Fin 0.044), (Fin 11.34); repeat split; reflexivity.
  - reflexivity.
  - lra.
  - lra.
  - exists th; exact H.
Defined.

(** ** Monte Carlo validator *)

Lemma random_seed_raises_iff (seeding : Z -> rng_state) (sd : Z) :
  raises (Np.random_seed seeding sd) <-> ~ valid_seed (Some sd).
Proof.
  unfold Np.random_seed, raises, valid_seed.
  destruct (Z.ltb_spec sd 0); destruct (Z.ltb_spec (2 ^ 32 - 1) sd);
    cbn [orb]; split; intros H'; try lia;
    try (eexists; reflexivity);
    try (destruct H' as [e H']; discriminate).
Qed.

Lemma random_seed_valid (seeding : Z -> rng_state) (sd : Z) :
  valid_seed (Some sd) -> Np.random_seed seeding sd = Ok (seeding sd).
Proof.
  unfold Np.random_seed, valid_seed. intros Hsd.
  destruct (Z.ltb_spec sd 0); [lia|].
  destruct (Z.ltb_spec (2 ^ 32 - 1) sd); [lia|]. reflexivity.
Qed.

(** C9, as the code has it: [mc_transmission] validates none of its
    parameters itself; it raises exactly when numpy refuses the seed (an
    integer outside [0, 2**32 - 1]) or the sample count is negative, and
    returns for every other input, a zero sample count and a zero or
    negative linear coefficient included. *)
Theorem mc_transmission_raises_iff
    (seeding : Z -> rng_state) (st : rng_state) (mu thickness : float64)
    (N : Z) (seed : option Z) :
  raises (fst (mc_transmission seeding st mu thickness N seed))
  <-> ~ valid_seed seed \/ (N < 0)%Z.
Proof.
  unfold mc_transmission.
  destruct seed as [sd|].
  - destruct (Np.random_seed seeding sd) as [st1|e] eqn:Hseed.
    + assert (Hok : valid_seed (Some sd)).
      { destruct (Z_le_dec 0 sd) as [H0|H0];
          [destruct (Z_le_dec sd (2 ^ 32 - 1)) as [H1|H1]|].
        - split; assumption.
        - exfalso.
          assert (Hr : raises (Np.random_seed seeding sd))
            by (apply random_seed_raises_iff; cbn [valid_seed]; lia).
          destruct Hr as [e He]. congruence.
        - exfalso.
          assert (Hr : raises (Np.random_seed seeding sd))
            by (apply random_seed_raises_iff; cbn [valid_seed]; lia).
          destruct Hr as [e He]. congruence. }
      unfold Np.random_random, raises.
      destruct (Z.ltb_spec N 0); cbn [fst]; split.
      * intros _; right; assumption.
      * intros _; eexists; reflexivity.
      * intros [e He]; discriminate.
      * intros [Hbad | Hneg]; [contradiction | lia].
    + cbn [fst]. split; [| intros _; eexists; reflexivity].
      intros _. left. apply (random_seed_raises_iff seeding sd).
      rewrite Hseed. eexists; reflexivity.
  - unfold Np.random_random, raises, valid_seed.
    destruct (Z.ltb_spec N 0); cbn [fst]; split.
    + intros _; right; assumption.
    + intros _; eexists; reflexivity.
    + intros [e He]; discriminate.
    + intros [Hbad | Hneg]; [exfalso; apply Hbad; exact I | lia].
Qed.

(** C9 fails as stated: with zero samples, with a zero and with a negative
    linear coefficient the estimator returns a value instead of raising. *)
Lemma mc_transmission_no_validation :
  fst (mc_transmission (fun _ _ => (1/2)%R) (fun _ => (1/2)%R)
         (Fin 2) (Fin 3) 0 None) = Ok (NaN, NaN)
  /\ fst (mc_transmission (fun _ _ => (1/2)%R) (fun _ => (1/2)%R)
            (Fin 0) (Fin 3) 1 None) = Ok (Fin 1, Fin 0)
  /\ fst (mc_transmission (fun _ _ => (1/2)%R) (fun _ => (1/2)%R)
            (Fin (-2)) (Fin 3) 1 None) = Ok (Fin 0, Fin 0).
Proof.
  assert (Hln : (ln (1/2) < 0)%R) by (apply ln_neg; lra).
  unfold mc_transmission, Np.random_random, Np.sum_bool.
  zcalc. cbn [seq map fst].
  repeat split.
  - cbn [filter length]. fcalc. reflexivity.
  - fcalc. cbn [filter length INR]. fcalc.
    replace (1 / 1 * (1 + - (1 / 1)) / 1)%R with 0%R by field.
    rewrite sqrt_0. do 3 f_equal. field.
  - fcalc.
    assert (H3 : (- ln (1/2) / -2 <= 3)%R).
    { apply Rmult_le_reg_r with 2%R; [lra|]. field_simplify. lra. }
    rbool. cbn [filter length INR]. fcalc.
    replace (0 / 1 * (1 + - (0 / 1)) / 1)%R with 0%R by field.
    rewrite sqrt_0. do 3 f_equal. field.
Qed.

(** ** The order on float64 values *)

Ltac ford :=
  intros;
  repeat match goal with x : float64 |- _ => destruct x end;
  cbn [F.leb F.ltb F.is_nan] in *;
  repeat match goal with
  | H : Rleb _ _ = true |- _ => apply Rleb_true in H
  | H : Rleb _ _ = false |- _ => apply Rleb_false in H
  | H : Rltb _ _ = true |- _ => apply Rltb_true in H
  | H : Rltb _ _ = false |- _ => apply Rltb_false in H
  end;
  try discriminate; try reflexivity;
  first [ apply Rleb_true | apply Rltb_true | apply Rleb_false
        | apply Rltb_false | idtac ];
  try lra.

Lemma ltb_leb x y : (x <? y) = true -> (x <=? y) = true.
Proof. ford. Qed.

Lemma ltb_false_leb x y :
  F.is_nan x = false -> F.is_nan y = false ->
  (x <? y) = false -> (y <=? x) = true.
Proof. ford. Qed.

Lemma leb_refl x : F.is_nan x = false -> (x <=? x) = true.
Proof. ford. Qed.

Lemma leb_trans x y z :
  (x <=? y) = true -> (y <=? z) = true -> (x <=? z) = true.
Proof. ford. Qed.

Lemma ltb_trans x y z :
  (x <? y) = true -> (y <? z) = true -> (x <? z) = true.
Proof. ford. Qed.

Lemma ltb_leb_trans x y z :
  (x <? y) = true -> (y <=? z) = true -> (x <? z) = true.
Proof. ford. Qed.

Lemma ltb_irrefl x : (x <? x) = false.
Proof. ford. Qed.

(** ** numpy operations on lists *)

Lemma select_map_filter {A B : Type} (p : A -> bool) (f : A -> B) (xs : list A) :
  Np.select (map p xs) (map f xs) = map f (filter p xs).
Proof.
  induction xs as [|x xs IH]; cbn [map Np.select filter]; [reflexivity|].
  destruct (p x); cbn [map]; rewrite IH; reflexivity.
Qed.

Lemma select_filter {A : Type} (p : A -> bool) (xs : list A) :
  Np.select (map p xs) xs = filter p xs.
Proof.
  rewrite <- (map_id xs) at 2. rewrite select_map_filter. apply map_id.
Qed.

Lemma any_map_false {A : Type} (p : A -> bool) (xs : list A) :
  Np.any (map p xs) = false <-> filter p xs = [].
Proof.
  unfold Np.any.
  induction xs as [|x xs IH]; cbn [map existsb filter]; [tauto|].
  destruct (p x); cbn [orb]; [split; discriminate | exact IH].
Qed.

Lemma getitem_middle {A : Type} (l1 l2 : list A) (v : A) :
  Np.getitem (l1 ++ v :: l2) (length l1) = Ok v.
Proof.
  unfold Np.getitem.
  rewrite nth_error_app2 by lia. rewrite Nat.sub_diag. reflexivity.
Qed.

Lemma argmin_from_bound (xs : list float64) (i bi : nat) (best : float64) :
  (bi < i)%nat -> (Np.argmin_from xs i bi best < i + length xs)%nat.
Proof.
  revert i bi best.
  induction xs as [|x xs IH]; intros i bi best Hlt; cbn [Np.argmin_from length].
  - lia.
  - destruct (negb (F.is_nan best) && (F.is_nan x || (x <? best))).
    + specialize (IH (S i) i x). lia.
    + specialize (IH (S i) bi best). lia.
Qed.

Lemma argmin_in_range (xs : list float64) :
  xs <> [] -> exists r, Np.argmin xs = Ok r /\ (r < length xs)%nat.
Proof.
  destruct xs as [|x xs]; [congruence|]. intros _.
  exists (Np.argmin_from xs 1 0 x); split; [reflexivity|].
  pose proof (argmin_from_bound xs 1 0 x). cbn [length]. lia.
Qed.

(** On values without nan, [argmin] finds the first position of a least
    element: everything before it is strictly greater. *)
Lemma argmin_from_spec (xs : list float64) :
  Forall (fun y => F.is_nan y = false) xs ->
  forall (i bi : nat) (best : float64),
  F.is_nan best = false ->
  (Np.argmin_from xs i bi best = bi
   /\ Forall (fun y => (best <=? y) = true) xs)
  \/ (exists l1 v l2,
        xs = l1 ++ v :: l2
        /\ Np.argmin_from xs i bi best = (i + length l1)%nat
        /\ (v <? best) = true
        /\ Forall (fun y => (v <? y) = true) l1
        /\ Forall (fun y => (v <=? y) = true) xs).
Proof.
  induction 1 as [|x xs Hx Hxs IH]; intros i bi best Hbest;
    cbn [Np.argmin_from].
  - left; split; [reflexivity | constructor].
  - rewrite Hbest, Hx. cbn [negb andb orb].
    destruct (x <? best) eqn:Hlt.
    + right. destruct (IH (S i) i x Hx) as [[Hr Hall] | (l1 & v & l2 & E & Hr & Hv & H1 & Hall)].
      * exists [], x, xs. cbn [app length]. repeat split.
        -- rewrite Hr; lia.
        -- assumption.
        -- constructor.
        -- constructor; [apply leb_refl; assumption | assumption].
      * exists (x :: l1), v, l2. cbn [app length]. repeat split.
        -- rewrite E; reflexivity.
        -- rewrite Hr; lia.
        -- eapply ltb_trans; eassumption.
        -- constructor; assumption.
        -- constructor; [apply ltb_leb; assumption | assumption].
    + apply ltb_false_leb in Hlt; try assumption.
      destruct (IH (S i) bi best Hbest) as [[Hr Hall] | (l1 & v & l2 & E & Hr & Hv & H1 & Hall)].
      * left; split; [assumption | constructor; assumption].
      * right. exists (x :: l1), v, l2. cbn [app length]. repeat split.
        -- rewrite E; reflexivity.
        -- rewrite Hr; lia.
        -- assumption.
        -- constructor; [eapply ltb_leb_trans; eassumption | assumption].
        -- constructor;
             [apply ltb_leb; eapply ltb_leb_trans; eassumption | assumption].
Qed.

Lemma argmin_spec (xs : list float64) :
  xs <> [] ->
  Forall (fun y => F.is_nan y = false) xs ->
  exists l1 v l2,
    xs = l1 ++ v :: l2
    /\ Np.argmin xs = Ok (length l1)
    /\ Forall (fun y => (v <? y) = true) l1
    /\ Forall (fun y => (v <=? y) = true) xs.
Proof.
  destruct xs as [|x xs]; [congruence|]. intros _ Hnan.
  inversion Hnan as [|? ? Hx Hxs]; subst.
  cbn [Np.argmin].
  destruct (argmin_from_spec xs Hxs 1 0 x Hx)
    as [[Hr Hall] | (l1 & v & l2 & E & Hr & Hv & H1 & Hall)].
  - exists [], x, xs. cbn [app length]. repeat split.
    + rewrite Hr; reflexivity.
    + constructor.
    + constructor; [apply leb_refl; assumption | assumption].
  - exists (x :: l1), v, l2. cbn [app length]. repeat split.
    + rewrite E; reflexivity.
    + rewrite Hr; reflexivity.
    + constructor; assumption.
    + constructor; [apply ltb_leb; assumption | assumption].
Qed.

Lemma app_inv_length {A : Type} (l1 l1' l2 l2' : list A) :
  length l1 = length l1' -> l1 ++ l2 = l1' ++ l2' -> l1 = l1' /\ l2 = l2'.
Proof.
  revert l1'. induction l1 as [|x l1 IH]; intros [|x' l1'] Hlen E;
    cbn [length app] in *; try discriminate.
  - split; [reflexivity | assumption].
  - injection E as -> E. destruct (IH l1' ltac:(lia) E) as [-> ->].
    split; reflexivity.
Qed.

(** ** One row of the grid search *)

Section SearchRow.

Variables mu1 mu2 rho1 rho2 target_fraction : float64.
Variable t2_vals : list float64.

Let feas := feasible mu1 mu2 target_fraction.
Let areal := areal_density rho1 rho2.
Let cand := candidate mu1 mu2 rho1 rho2.
Let row := search_row mu1 mu2 rho1 rho2 target_fraction t2_vals.

(** the row in terms of the feasible sub-grid [filter (feas t1) t2_vals] *)
Lemma search_row_filter (st : search_state) (t1 : float64) :
  row st t1 =
    let ok := filter (feas t1) t2_vals in
    match ok with
    | [] => Ok st
    | _ :: _ =>
        idx <- Np.argmin (map (areal t1) ok) ;;
        a <- Np.getitem (map (areal t1) ok) idx ;;
        b <- Np.getitem ok idx ;;
        tr <- Np.getitem (map (combined_transmission mu1 mu2 t1) ok) idx ;;
        Ok (accept st {| t1_cm := t1; t2_cm := b;
                         areal_density_g_per_cm2 := a;
                         transmission := tr |})
    end.
Proof.
  unfold row, search_row. rewrite !map_map.
  change (map (fun x => (F.exp (- mu1 * t1) * F.exp (- mu2 * x)) <=? target_fraction) t2_vals)
    with (map (feas t1) t2_vals).
  change (map (fun x => F.exp (- mu1 * t1) * F.exp (- mu2 * x)) t2_vals)
    with (map (combined_transmission mu1 mu2 t1) t2_vals).
  change (map (fun t2 => rho1 * t1 + rho2 * t2) t2_vals)
    with (map (areal t1) t2_vals).
  rewrite !select_map_filter, select_filter.
  cbv zeta.
  destruct (Np.any (map (feas t1) t2_vals)) eqn:Hany.
  - cbn [negb].
    destruct (filter (feas t1) t2_vals) eqn:E.
    + apply any_map_false in E. congruence.
    + repeat match goal with
             | |- bind ?m _ = bind ?m _ =>
                 destruct m; cbn [bind]; [|reflexivity]
             end.
      unfold accept.
      cbn [fst areal_density_g_per_cm2].
      destruct (match fst st with Some best => _ | None => true end);
        reflexivity.
  - cbn [negb]. apply any_map_false in Hany. rewrite Hany. reflexivity.
Qed.

(** A row either leaves the state alone (nothing feasible) or offers the
    candidate at the argmin position of the feasible sub-grid; when the
    row's areal densities are free of nan, that candidate is a least one
    and the first such. *)
Lemma search_row_cases (st : search_state) (t1 : float64) :
  (filter (feas t1) t2_vals = [] /\ row st t1 = Ok st)
  \/ (exists F1 b F2,
        filter (feas t1) t2_vals = F1 ++ b :: F2
        /\ row st t1 = Ok (accept st (cand t1 b))
        /\ ((forall y, In y t2_vals -> F.is_nan (areal t1 y) = false) ->
            Forall (fun y => (areal t1 b <? areal t1 y) = true) F1
            /\ Forall (fun y => (areal t1 b <=? areal t1 y) = true)
                      (F1 ++ b :: F2))).
Proof.
  rewrite search_row_filter. cbv zeta.
  destruct (filter (feas t1) t2_vals) as [|x ok'] eqn:E; [left; auto|].
  right. rewrite <- E.
  assert (Hne : map (areal t1) (filter (feas t1) t2_vals) <> [])
    by (rewrite E; discriminate).
  destruct (argmin_in_range _ Hne) as (r & Hr & Hlt).
  rewrite length_map in Hlt.
  destruct (nth_error (filter (feas t1) t2_vals) r) as [b|] eqn:Hb;
    [| apply nth_error_None in Hb; lia].
  destruct (nth_error_split _ _ Hb) as (F1 & F2 & EF & Hlen).
  exists F1, b, F2. split; [assumption|]. split.
  - rewrite Hr. cbn [bind]. rewrite EF, !map_app. cbn [map].
    rewrite <- Hlen.
    rewrite <- (length_map (areal t1) F1) at 1.
    rewrite getitem_middle. cbn [bind].
    rewrite getitem_middle. cbn [bind].
    rewrite <- (length_map (combined_transmission mu1 mu2 t1) F1).
    rewrite getitem_middle. cbn [bind].
    reflexivity.
  - intros Hnan.
    assert (Hall : Forall (fun y => F.is_nan y = false)
                     (map (areal t1) (filter (feas t1) t2_vals))).
    { apply Forall_forall. intros v Hv. apply in_map_iff in Hv.
      destruct Hv as (y & <- & Hy). apply filter_In in Hy.
      apply Hnan; tauto. }
    destruct (argmin_spec _ Hne Hall) as (l1 & v & l2 & El & Hr' & H1 & H2).
    rewrite Hr in Hr'. injection Hr' as Hr'.
    rewrite EF, map_app in El. cbn [map] in El.
    apply app_inv_length in El; [| rewrite length_map; lia].
    destruct El as [El1 El2]. injection El2 as Ev El2. subst l1 v l2.
    split.
    + apply Forall_forall. intros y Hy.
      rewrite Forall_forall in H1. apply H1. apply in_map; assumption.
    + rewrite <- EF. apply Forall_forall. intros y Hy.
      rewrite Forall_forall in H2. apply H2. apply in_map; assumption.
Qed.

End SearchRow.

(** ** The whole grid search *)

Section Search.

Variables mu1 mu2 rho1 rho2 target_fraction : float64.
Variable t2_vals : list float64.

Let feas := feasible mu1 mu2 target_fraction.
Let areal := areal_density rho1 rho2.
Let cand := candidate mu1 mu2 rho1 rho2.
Let row := search_row mu1 mu2 rho1 rho2 target_fraction t2_vals.
Let run := search mu1 mu2 rho1 rho2 target_fraction t2_vals.
Let shape := shaped mu1 mu2 rho1 rho2 target_fraction t2_vals.
Let inv := search_invariant mu1 mu2 rho1 rho2 target_fraction t2_vals.

Lemma search_app (l1 l2 : list float64) (st : search_state) :
  run (l1 ++ l2) st = (st' <- run l1 st ;; run l2 st').
Proof.
  revert st. induction l1 as [|t l1 IH]; intros st; cbn [app]; [reflexivity|].
  unfold run in *. cbn [search].
  destruct (search_row _ _ _ _ _ _ st t); cbn [bind]; [apply IH | reflexivity].
Qed.

Lemma filter_pivot_feasible (t1 : float64) (F1 F2 : list float64) (b : float64) :
  filter (feas t1) t2_vals = F1 ++ b :: F2 ->
  In b t2_vals /\ feas t1 b = true.
Proof.
  intros E. apply filter_In. rewrite E. apply in_elt.
Qed.

(** rows without a feasible pair leave the state untouched *)
Lemma search_infeasible (l : list float64) (st : search_state) :
  (forall a b, In a l -> In b t2_vals -> feas a b = false) ->
  run l st = Ok st.
Proof.
  induction l as [|t l IH]; intros Hno; [reflexivity|].
  unfold run in *. cbn [search].
  destruct (search_row_cases mu1 mu2 rho1 rho2 target_fraction t2_vals st t)
    as [[_ ->] | (F1 & b & F2 & EF & _)].
  - cbn [bind]. apply IH. intros a b Ha Hb. apply Hno; [right|]; assumption.
  - apply filter_pivot_feasible in EF. destruct EF as [Hb Hf].
    rewrite (Hno t b) in Hf; [discriminate | left; reflexivity | assumption].
Qed.

Lemma accept_shaped (st : search_state) (a b : float64) :
  shape st -> In b t2_vals -> feas a b = true ->
  shape (accept st (cand a b)).
Proof.
  intros Hst Hb Hf. unfold accept.
  destruct (match fst st with Some best => _ | None => true end);
    [| assumption].
  right. exists a, b. repeat split; assumption.
Qed.

(** the search never raises, whatever the numbers are *)
Lemma search_shaped (l : list float64) (st : search_state) :
  shape st -> exists st', run l st = Ok st' /\ shape st'.
Proof.
  revert st. induction l as [|t l IH]; intros st Hst.
  - exists st; split; [reflexivity | assumption].
  - unfold run in *. cbn [search].
    destruct (search_row_cases mu1 mu2 rho1 rho2 target_fraction t2_vals st t)
      as [[_ ->] | (F1 & b & F2 & EF & -> & _)]; cbn [bind].
    + apply IH; assumption.
    + apply IH. apply filter_pivot_feasible in EF.
      apply accept_shaped; tauto.
Qed.

Lemma search_invariant_step (P : list float64) (t : float64)
    (st : search_state) :
  (forall a b, In a (P ++ [t]) -> In b t2_vals ->
               F.is_nan (areal a b) = false) ->
  inv P st ->
  exists st', row st t = Ok st' /\ inv (P ++ [t]) st'.
Proof.
  unfold row, inv, search_invariant, areal.
  intros Hnan Hinv.
  destruct (search_row_cases mu1 mu2 rho1 rho2 target_fraction t2_vals st t)
    as [[EF ->] | (F1 & b & F2 & EF & -> & Hmin)].
  - (* nothing feasible in this row *)
    exists st; split; [reflexivity|].
    assert (Hrow : forall y, In y t2_vals ->
                             feasible mu1 mu2 target_fraction t y = false).
    { intros y Hy.
      destruct (feasible mu1 mu2 target_fraction t y) eqn:Hf; [|reflexivity].
      assert (Hin : In y (filter (feasible mu1 mu2 target_fraction t) t2_vals))
        by (apply filter_In; tauto).
      rewrite EF in Hin. destruct Hin. }
    destruct Hinv as [[-> Hno] | (P1 & a0 & P2 & G1 & b0 & G2 & EP & EG & -> & Hle & Hlt & Hfirst)].
    + left; split; [reflexivity|]. intros a y Ha Hy.
      apply in_app_or in Ha. destruct Ha as [Ha | [<- | []]]; auto.
    + right. exists P1, a0, (P2 ++ [t]), G1, b0, G2.
      split; [rewrite EP, <- app_assoc; reflexivity|].
      repeat split; try assumption.
      intros a y Ha Hy Hf. apply in_app_or in Ha.
      destruct Ha as [Ha | [<- | []]]; [apply Hle; assumption|].
      rewrite Hrow in Hf by assumption. discriminate.
  - (* the row offers the candidate (t, b) *)
    destruct (filter_pivot_feasible _ _ _ _ EF) as [Hb Hfb].
    destruct Hmin as [Hrow1 Hrow].
    { intros y Hy. apply Hnan;
        [apply in_or_app; right; left; reflexivity | assumption]. }
    assert (Hrowle : forall y, In y t2_vals ->
              feasible mu1 mu2 target_fraction t y = true ->
              (areal_density rho1 rho2 t b
                 <=? areal_density rho1 rho2 t y) = true).
    { intros y Hy Hf. rewrite Forall_forall in Hrow. apply Hrow.
      rewrite <- EF. apply filter_In; tauto. }
    rewrite Forall_forall in Hrow1.
    eexists; split; [reflexivity|].
    destruct Hinv as [[-> Hno] | (P1 & a0 & P2 & G1 & b0 & G2 & EP & EG & -> & Hle & Hlt & Hfirst)].
    + (* first feasible row *)
      unfold accept; cbn [fst].
      right. exists P, t, [], F1, b, F2.
      repeat split; try assumption.
      * intros a y Ha Hy Hf. apply in_app_or in Ha.
        destruct Ha as [Ha | [<- | []]]; [| apply Hrowle; assumption].
        rewrite Hno in Hf by assumption. discriminate.
      * intros a y Ha Hy Hf. rewrite Hno in Hf by assumption. discriminate.
    + unfold accept; cbn [fst areal_density_g_per_cm2 candidate].
      destruct (areal_density rho1 rho2 t b
                  <? areal_density rho1 rho2 a0 b0) eqn:Hcmp.
      * (* strictly better: the new row takes over *)
        right. exists P, t, [], F1, b, F2.
        repeat split; try assumption.
        -- intros a y Ha Hy Hf. apply in_app_or in Ha.
           destruct Ha as [Ha | [<- | []]]; [| apply Hrowle; assumption].
           apply ltb_leb. eapply ltb_leb_trans; [exact Hcmp|].
           apply Hle; assumption.
        -- intros a y Ha Hy Hf. eapply ltb_leb_trans; [exact Hcmp|].
           apply Hle; assumption.
      * (* not better: the earlier candidate stays *)
        right. exists P1, a0, (P2 ++ [t]), G1, b0, G2.
        split; [rewrite EP, <- app_assoc; reflexivity|].
        repeat split; try assumption.
        intros a y Ha Hy Hf. apply in_app_or in Ha.
        destruct Ha as [Ha | [<- | []]]; [apply Hle; assumption|].
        apply leb_trans with (areal_density rho1 rho2 t b);
          [| apply Hrowle; assumption].
        destruct (filter_pivot_feasible _ _ _ _ EG) as [Hb0 _].
        apply ltb_false_leb; [| | exact Hcmp].
        -- apply Hnan;
             [apply in_or_app; right; left; reflexivity | assumption].
        -- apply Hnan; [| assumption]. apply in_or_app; left.
           rewrite EP. apply in_elt.
Qed.

(** the search returns, and its final state satisfies the invariant for
    the whole grid, when no areal density of the grid is nan *)
Lemma search_spec (t1_vals : list float64) :
  (forall a b, In a t1_vals -> In b t2_vals ->
               F.is_nan (areal a b) = false) ->
  exists st, run t1_vals (None, None) = Ok st /\ inv t1_vals st.
Proof.
  induction t1_vals as [|t P IH] using rev_ind; intros Hnan.
  - exists (None, None); split; [reflexivity|].
    left; split; [reflexivity|]. intros a b [].
  - destruct IH as (st & Hrun & Hinv).
    { intros a b Ha Hb. apply Hnan; [apply in_or_app; left|]; assumption. }
    destruct (search_invariant_step P t st Hnan Hinv) as (st' & Hrow & Hinv').
    exists st'. split; [| assumption].
    rewrite search_app, Hrun. cbn [bind].
    unfold run, row in *. cbn [search]. rewrite Hrow. reflexivity.
Qed.

End Search.

(** ** The thickness grids *)

Lemma set_last_snoc {A : Type} (l : list A) (a v : A) :
  Np.set_last (l ++ [a]) v = l ++ [v].
Proof.
  unfold Np.set_last.
  destruct (l ++ [a]) eqn:E.
  - destruct l; discriminate.
  - rewrite <- E, removelast_last. reflexivity.
Qed.

Lemma linspace_raises_iff (start stop : float64) (num : Z) :
  raises (Np.linspace start stop num) <-> (num < 0)%Z.
Proof.
  unfold Np.linspace, raises.
  destruct (Z.ltb_spec num 0); split; intros H'; try lia.
  - eexists; reflexivity.
  - destruct H' as [e H']; discriminate.
Qed.

Lemma div_Fin (a b : R) : b <> 0%R -> Fin a / Fin b = Fin (a / b).
Proof. intros Hb. cbn [F.div]. rbool. reflexivity. Qed.

Lemma linspace_Fin (m : R) (num : Z) :
  (0 <= num)%Z ->
  Np.linspace (Fin 0) (Fin m) num = Ok (grid_points m num).
Proof.
  intros Hnum. unfold Np.linspace, grid_points, grid_step.
  destruct (Z.ltb_spec num 0) as [|_]; [lia|]. f_equal.
  rewrite map_map.
  destruct (Z.ltb_spec 1 num) as [H1 | H1].
  - (* at least two samples: the spacing is m / (num - 1) *)
    destruct (Z.ltb_spec 0 (num - 1)) as [_|]; [|lia].
    assert (Hc : (0 < IZR (num - 1))%R) by (apply IZR_lt; lia).
    unfold F.of_Z, F.of_nat. cbn [F.sub F.neg F.add].
    rewrite div_Fin by lra. cbn [F.mul F.add].
    replace (Z.to_nat num) with (S (Z.to_nat (num - 1))) by lia.
    rewrite seq_S, !map_app. cbn [map Nat.add].
    rewrite set_last_snoc. f_equal.
    + apply map_ext. intros i. f_equal. field. lra.
    + do 2 f_equal. rewrite INR_IZR_INZ, Z2Nat.id by lia. field. lra.
  - (* zero or one sample *)
    destruct (Z.ltb_spec 0 (num - 1)) as [|_]; [lia|].
    assert (Hn : num = 0%Z \/ num = 1%Z) by lia.
    destruct Hn as [-> | ->]; [reflexivity|].
    zcalc. cbn [seq map F.of_nat F.sub F.neg F.mul F.add INR].
    do 2 f_equal. ring.
Qed.

Lemma grid_points_finite (m : R) (num : Z) (a : float64) :
  In a (grid_points m num) -> exists r, a = Fin r.
Proof.
  unfold grid_points. intros Ha. apply in_map_iff in Ha.
  destruct Ha as (i & <- & _). eexists; reflexivity.
Qed.

Lemma grid_step_nonneg (m : R) (num : Z) :
  (0 <= m)%R -> (0 <= grid_step m num)%R.
Proof.
  intros Hm. unfold grid_step.
  destruct (Z.ltb_spec 1 num); [|lra].
  apply Rmult_le_pos; [assumption|].
  left. apply Rinv_0_lt_compat. apply IZR_lt. lia.
Qed.

Lemma ascending_map_seq (g : nat -> float64) (s n : nat) :
  (forall i j, (i <= j)%nat -> (g i <=? g j) = true) ->
  ascending (map g (seq s n)).
Proof.
  intros Hmono. revert s.
  induction n as [|n IH]; intros s; cbn [seq map]; constructor.
  - apply IH.
  - apply Forall_forall. intros y Hy. apply in_map_iff in Hy.
    destruct Hy as (j & <- & Hj). apply in_seq in Hj. apply Hmono. lia.
Qed.

(** with a non-negative maximum the grid is in ascending order *)
Lemma grid_points_ascending (m : R) (num : Z) :
  (0 <= m)%R -> ascending (grid_points m num).
Proof.
  intros Hm. apply ascending_map_seq. intros i j Hij.
  cbn [F.leb]. apply Rleb_true.
  apply Rmult_le_compat_r; [apply grid_step_nonneg; assumption|].
  apply le_INR; assumption.
Qed.

Lemma ascending_filter (p : float64 -> bool) (l : list float64) :
  ascending l -> ascending (filter p l).
Proof.
  induction 1 as [|x l Hl IH Hx]; cbn [filter]; [constructor|].
  destruct (p x); [|assumption].
  constructor; [assumption|].
  apply Forall_forall. intros y Hy. apply filter_In in Hy.
  rewrite Forall_forall in Hx. apply Hx. tauto.
Qed.

Lemma ascending_pivot (l1 l2 : list float64) (x y : float64) :
  ascending (l1 ++ x :: l2) -> In y l2 -> (x <=? y) = true.
Proof.
  induction l1 as [|z l1 IH]; cbn [app]; intros Hs Hy.
  - inversion Hs as [|? ? _ Hall]; subst.
    rewrite Forall_forall in Hall. apply Hall; assumption.
  - inversion Hs; subst. apply IH; assumption.
Qed.

(** a grid whose step count divides into a finer one is contained in it *)
Lemma grid_points_nested (m : R) (num num' : Z) (a : float64) :
  (num <= num')%Z ->
  (num = 1 \/ (num - 1 | num' - 1))%Z ->
  In a (grid_points m num) -> In a (grid_points m num').
Proof.
  intros Hle Hdiv Ha. unfold grid_points in *.
  apply in_map_iff in Ha. destruct Ha as (i & <- & Hi). apply in_seq in Hi.
  apply in_map_iff.
  destruct (Z.eq_dec num 1) as [-> | Hne].
  - exists 0%nat. split; [| apply in_seq; lia].
    assert (i = 0%nat) by lia. subst i. cbn [INR]. f_equal. ring.
  - destruct Hdiv as [? | [k Hk]]; [contradiction|].
    assert (Hk1 : (1 <= k)%Z) by nia.
    exists (i * Z.to_nat k)%nat. split.
    + f_equal. unfold grid_step.
      destruct (Z.ltb_spec 1 num); [|lia].
      destruct (Z.ltb_spec 1 num'); [|lia].
      rewrite Hk, mult_INR, mult_IZR.
      rewrite (INR_IZR_INZ (Z.to_nat k)), Z2Nat.id by lia.
      assert (0 < IZR k)%R by (apply IZR_lt; lia).
      assert (0 < IZR (num - 1))%R by (apply IZR_lt; lia).
      field. lra.
    + apply in_seq. nia.
Qed.

(** ** The optimizer *)

Lemma mu_lin_from_given (mat : material) (mu : float64) :
  mu_lin mat = Some mu -> mu_lin_from mat = Ok mu.
Proof. unfold mu_lin_from. intros ->. reflexivity. Qed.

Lemma optimize_eq (mat1 mat2 : material) (tg max1 max2 : float64)
    (steps1 steps2 : Z) (mu1 mu2 : float64) (g1 g2 : list float64) :
  mu_lin_from mat1 = Ok mu1 -> mu_lin_from mat2 = Ok mu2 ->
  Np.linspace (Fin 0) max1 steps1 = Ok g1 ->
  Np.linspace (Fin 0) max2 steps2 = Ok g2 ->
  optimize_two_materials mat1 mat2 tg max1 max2 steps1 steps2 =
    (st <- search mu1 mu2 (get_density mat1) (get_density mat2) tg g2 g1
             (None, None) ;;
     Ok (snd st)).
Proof.
  intros H1 H2 H3 H4. unfold optimize_two_materials.
  rewrite H1, H2, H3, H4. reflexivity.
Qed.

(** the optimizer raises only for a material without coefficient or a
    negative step count *)
Lemma optimize_raises_iff (mat1 mat2 : material) (tg max1 max2 : float64)
    (steps1 steps2 : Z) :
  raises (optimize_two_materials mat1 mat2 tg max1 max2 steps1 steps2)
  <-> raises (mu_lin_from mat1) \/ raises (mu_lin_from mat2)
      \/ (steps1 < 0)%Z \/ (steps2 < 0)%Z.
Proof.
  rewrite <- (linspace_raises_iff (Fin 0) max1 steps1).
  rewrite <- (linspace_raises_iff (Fin 0) max2 steps2).
  unfold optimize_two_materials, raises.
  destruct (mu_lin_from mat1) as [mu1|e1]; cbn [bind];
    [| split; [intros _; left | intros _]; eexists; reflexivity].
  destruct (mu_lin_from mat2) as [mu2|e2]; cbn [bind];
    [| split; [intros _; right; left | intros _]; eexists; reflexivity].
  destruct (Np.linspace (Fin 0) max1 steps1) as [g1|e3]; cbn [bind];
    [| split; [intros _; right; right; left | intros _];
       eexists; reflexivity].
  destruct (Np.linspace (Fin 0) max2 steps2) as [g2|e4]; cbn [bind];
    [| split; [intros _; right; right; right | intros _];
       eexists; reflexivity].
  destruct (search_shaped mu1 mu2 (get_density mat1) (get_density mat2) tg g2
              g1 (None, None)) as (st & -> & _); [left; reflexivity|].
  cbn [bind]. split.
  - intros [e H]; discriminate.
  - intros [[e H] | [[e H] | [[e H] | [e H]]]]; discriminate.
Qed.

(** the areal densities over two finite grids are never nan when both
    densities are finite *)
Lemma areal_density_not_nan (rho1 rho2 : float64) (m1 m2 : R) (s1 s2 : Z)
    (a b : float64) :
  F.is_finite rho1 = true -> F.is_finite rho2 = true ->
  In a (grid_points m1 s1) -> In b (grid_points m2 s2) ->
  F.is_nan (areal_density rho1 rho2 a b) = false.
Proof.
  intros Hr1 Hr2 Ha Hb.
  apply grid_points_finite in Ha. apply grid_points_finite in Hb.
  destruct Ha as [x ->]. destruct Hb as [y ->].
  destruct rho1; try discriminate. destruct rho2; try discriminate.
  reflexivity.
Qed.

(** with finite densities and thickness bounds the optimizer returns the
    second component of a state that satisfies the loop invariant for the
    whole grid *)
Lemma optimize_spec (mat1 mat2 : material) (tg : float64) (m1 m2 : R)
    (steps1 steps2 : Z) (mu1 mu2 : float64) :
  mu_lin_from mat1 = Ok mu1 -> mu_lin_from mat2 = Ok mu2 ->
  (0 <= steps1)%Z -> (0 <= steps2)%Z ->
  F.is_finite (get_density mat1) = true ->
  F.is_finite (get_density mat2) = true ->
  exists st,
    optimize_two_materials mat1 mat2 tg (Fin m1) (Fin m2) steps1 steps2
      = Ok (snd st)
    /\ search_invariant mu1 mu2 (get_density mat1) (get_density mat2) tg
         (grid_points m2 steps2) (grid_points m1 steps1) st.
Proof.
  intros H1 H2 Hs1 Hs2 Hr1 Hr2.
  rewrite (optimize_eq mat1 mat2 tg (Fin m1) (Fin m2) steps1 steps2 mu1 mu2
             (grid_points m1 steps1) (grid_points m2 steps2))
    by (assumption || apply linspace_Fin; assumption).
  destruct (search_spec mu1 mu2 (get_density mat1) (get_density mat2) tg
              (grid_points m2 steps2) (grid_points m1 steps1))
    as (st & Hrun & Hinv).
  { intros a b Ha Hb. eapply areal_density_not_nan; eassumption. }
  exists st. rewrite Hrun. split; [reflexivity | assumption].
Qed.

Lemma optimize_steps_nonneg (mat1 mat2 : material) (tg max1 max2 : float64)
    (steps1 steps2 : Z) (r : option design) :
  optimize_two_materials mat1 mat2 tg max1 max2 steps1 steps2 = Ok r ->
  (0 <= steps1)%Z /\ (0 <= steps2)%Z
  /\ returns (mu_lin_from mat1) /\ returns (mu_lin_from mat2).
Proof.
  intros H.
  assert (Hno : ~ raises (optimize_two_materials mat1 mat2 tg max1 max2
                            steps1 steps2))
    by (rewrite H; intros [e He]; discriminate).
  rewrite optimize_raises_iff in Hno.
  repeat split; try lia.
  - destruct (mu_lin_from mat1) as [mu|e]; [eexists; reflexivity|].
    exfalso; apply Hno; left; eexists; reflexivity.
  - destruct (mu_lin_from mat2) as [mu|e]; [eexists; reflexivity|].
    exfalso; apply Hno; right; left; eexists; reflexivity.
Qed.

(** a returned design is the candidate of a grid pair that the loop
    invariant singles out *)
Lemma optimize_design_inv (mat1 mat2 : material) (tg : float64) (m1 m2 : R)
    (steps1 steps2 : Z) (mu1 mu2 : float64) (d : design) :
  mu_lin_from mat1 = Ok mu1 -> mu_lin_from mat2 = Ok mu2 ->
  F.is_finite (get_density mat1) = true ->
  F.is_finite (get_density mat2) = true ->
  optimize_two_materials mat1 mat2 tg (Fin m1) (Fin m2) steps1 steps2
    = Ok (Some d) ->
  search_invariant mu1 mu2 (get_density mat1) (get_density mat2) tg
    (grid_points m2 steps2) (grid_points m1 steps1)
    (Some (areal_density_g_per_cm2 d), Some d)
  /\ exists a0 b0,
       d = candidate mu1 mu2 (get_density mat1) (get_density mat2) a0 b0.
Proof.
  intros H1 H2 Hr1 Hr2 Hopt.
  destruct (optimize_steps_nonneg _ _ _ _ _ _ _ _ Hopt) as (Hs1 & Hs2 & _).
  destruct (optimize_spec mat1 mat2 tg m1 m2 steps1 steps2 mu1 mu2
              H1 H2 Hs1 Hs2 Hr1 Hr2) as (st & Hst & Hinv).
  rewrite Hopt in Hst. injection Hst as Hst.
  pose proof Hinv as Hinv'.
  destruct Hinv' as [[-> _] | (P1 & a0 & P2 & F1 & b0 & F2 & _ & _ & -> & _)];
    [discriminate|].
  cbn [snd] in Hst. injection Hst as ->.
  split; [exact Hinv | exists a0, b0; reflexivity].
Qed.

(** C1: a returned design lies on the two grids, meets the target, has the
    areal density density1*t1 + density2*t2, and no grid pair that meets the
    target has a smaller areal density. *)
Theorem optimize_two_materials_minimal
    (mat1 mat2 : material) (tg : float64) (m1 m2 : R) (steps1 steps2 : Z)
    (mu1 mu2 : float64) (g1 g2 : list float64) (d : design) :
  mu_lin_from mat1 = Ok mu1 -> mu_lin_from mat2 = Ok mu2 ->
  Np.linspace (Fin 0) (Fin m1) steps1 = Ok g1 ->
  Np.linspace (Fin 0) (Fin m2) steps2 = Ok g2 ->
  F.is_finite (get_density mat1) = true ->
  F.is_finite (get_density mat2) = true ->
  optimize_two_materials mat1 mat2 tg (Fin m1) (Fin m2) steps1 steps2
    = Ok (Some d) ->
  In (t1_cm d) g1 /\ In (t2_cm d) g2
  /\ transmission d = combined_transmission mu1 mu2 (t1_cm d) (t2_cm d)
  /\ (transmission d <=? tg) = true
  /\ areal_density_g_per_cm2 d
     = areal_density (get_density mat1) (get_density mat2) (t1_cm d) (t2_cm d)
  /\ forall a b, In a g1 -> In b g2 ->
       feasible mu1 mu2 tg a b = true ->
       (areal_density_g_per_cm2 d
          <=? areal_density (get_density mat1) (get_density mat2) a b) = true.
Proof.
  intros H1 H2 Hg1 Hg2 Hr1 Hr2 Hopt.
  destruct (optimize_steps_nonneg _ _ _ _ _ _ _ _ Hopt) as (Hs1 & Hs2 & _).
  rewrite linspace_Fin in Hg1, Hg2 by assumption.
  injection Hg1 as <-. injection Hg2 as <-.
  destruct (optimize_design_inv mat1 mat2 tg m1 m2 steps1 steps2 mu1 mu2 d
              H1 H2 Hr1 Hr2 Hopt) as [Hinv _].
  destruct Hinv as [[E _] | (P1 & a0 & P2 & F1 & b0 & F2 & EP & EF & E & Hle & _)];
    [discriminate|].
  injection E as _ ->.
  destruct (filter_pivot_feasible _ _ _ _ _ _ _ _ EF) as [Hb0 Hf0].
  cbn [t1_cm t2_cm transmission areal_density_g_per_cm2 candidate].
  repeat split; try assumption.
  rewrite EP. apply in_elt.
Qed.

(** C2: with non-negative thickness bounds (ascending grids), among the
    feasible grid pairs that tie with the returned areal density the design
    has the smallest t1, and within its own row the smallest t2. *)
Theorem optimize_two_materials_tie_break
    (mat1 mat2 : material) (tg : float64) (m1 m2 : R) (steps1 steps2 : Z)
    (mu1 mu2 : float64) (g1 g2 : list float64) (d : design) :
  mu_lin_from mat1 = Ok mu1 -> mu_lin_from mat2 = Ok mu2 ->
  Np.linspace (Fin 0) (Fin m1) steps1 = Ok g1 ->
  Np.linspace (Fin 0) (Fin m2) steps2 = Ok g2 ->
  F.is_finite (get_density mat1) = true ->
  F.is_finite (get_density mat2) = true ->
  (0 <= m1)%R -> (0 <= m2)%R ->
  optimize_two_materials mat1 mat2 tg (Fin m1) (Fin m2) steps1 steps2
    = Ok (Some d) ->
  forall a b, In a g1 -> In b g2 ->
    feasible mu1 mu2 tg a b = true ->
    areal_density (get_density mat1) (get_density mat2) a b
      = areal_density_g_per_cm2 d ->
    (t1_cm d <=? a) = true
    /\ (a = t1_cm d -> (t2_cm d <=? b) = true).
Proof.
  intros H1 H2 Hg1 Hg2 Hr1 Hr2 Hm1 Hm2 Hopt a b Ha Hb Hf Htie.
  destruct (optimize_steps_nonneg _ _ _ _ _ _ _ _ Hopt) as (Hs1 & Hs2 & _).
  rewrite linspace_Fin in Hg1, Hg2 by assumption.
  injection Hg1 as <-. injection Hg2 as <-.
  destruct (optimize_design_inv mat1 mat2 tg m1 m2 steps1 steps2 mu1 mu2 d
              H1 H2 Hr1 Hr2 Hopt) as [Hinv _].
  destruct Hinv as [[E _] | (P1 & a0 & P2 & F1 & b0 & F2 & EP & EF & E & _ & Hlt & Hfirst)];
    [discriminate|].
  injection E as _ ->.
  cbn [t1_cm t2_cm areal_density_g_per_cm2 candidate] in *.
  pose proof ltb_irrefl as Hirr.
  pose proof (grid_points_ascending m1 steps1 Hm1) as Hasc1.
  pose proof (ascending_filter (feasible mu1 mu2 tg a0) _
                (grid_points_ascending m2 steps2 Hm2)) as Hasc2.
  rewrite EP in Hasc1. rewrite EF in Hasc2.
  split.
  - rewrite EP in Ha. apply in_app_or in Ha.
    destruct Ha as [Ha | [<- | Ha]].
    + specialize (Hlt a b Ha Hb Hf). rewrite Htie, Hirr in Hlt. discriminate.
    + apply leb_refl.
      assert (Hin : In a0 (grid_points m1 steps1))
        by (rewrite EP; apply in_elt).
      apply grid_points_finite in Hin. destruct Hin as [r ->]. reflexivity.
    + eapply ascending_pivot; eassumption.
  - intros ->.
    assert (Hin : In b (filter (feasible mu1 mu2 tg a0) (grid_points m2 steps2)))
      by (apply filter_In; tauto).
    rewrite EF in Hin. apply in_app_or in Hin.
    destruct Hin as [Hin | [<- | Hin]].
    + specialize (Hfirst b Hin). rewrite Htie, Hirr in Hfirst. discriminate.
    + apply leb_refl.
      apply grid_points_finite in Hb. destruct Hb as [r ->]. reflexivity.
    + eapply ascending_pivot; eassumption.
Qed.

(** C3: when no grid pair meets the target the optimizer returns the
    absent result [None], not a design. *)
Theorem optimize_two_materials_no_feasible
    (mat1 mat2 : material) (tg max1 max2 : float64) (steps1 steps2 : Z)
    (mu1 mu2 : float64) (g1 g2 : list float64) :
  mu_lin_from mat1 = Ok mu1 -> mu_lin_from mat2 = Ok mu2 ->
  Np.linspace (Fin 0) max1 steps1 = Ok g1 ->
  Np.linspace (Fin 0) max2 steps2 = Ok g2 ->
  (forall a b, In a g1 -> In b g2 -> feasible mu1 mu2 tg a b = false) ->
  optimize_two_materials mat1 mat2 tg max1 max2 steps1 steps2 = Ok None.
Proof.
  intros H1 H2 Hg1 Hg2 Hno.
  rewrite (optimize_eq _ _ _ _ _ _ _ _ _ _ _ H1 H2 Hg1 Hg2).
  rewrite search_infeasible by assumption. reflexivity.
Qed.

(** C4, as the code has it: [required_thickness_for_target] raises exactly
    for a target <= 0 (a target above 1 is accepted), and
    [optimize_two_materials] never looks at the target before computing:
    it raises only for a material without coefficient or a negative step
    count. *)
Theorem target_validation
    (mu tg : float64) (mat1 mat2 : material) (max1 max2 : float64)
    (steps1 steps2 : Z) :
  (raises (required_thickness_for_target mu tg) <-> (tg <=? Fin 0) = true)
  /\ (raises (optimize_two_materials mat1 mat2 tg max1 max2 steps1 steps2)
      <-> raises (mu_lin_from mat1) \/ raises (mu_lin_from mat2)
          \/ (steps1 < 0)%Z \/ (steps2 < 0)%Z).
Proof.
  split; [apply required_thickness_raises_iff | apply optimize_raises_iff].
Qed.

(** C4 fails as stated: at target 2 (> 1) neither function raises, and the
    optimizer does not raise at target 0 either. *)
Lemma target_above_one_accepted :
  (Fin 2 >? Fin 1) = true
  /\ ~ raises (required_thickness_for_target (Fin 1) (Fin 2))
  /\ ~ raises (optimize_two_materials lead lead (Fin 2) (Fin 50) (Fin 50)
                 201 201)
  /\ (Fin 0 <=? Fin 0) = true
  /\ ~ raises (optimize_two_materials lead lead (Fin 0) (Fin 50) (Fin 50)
                 201 201).
Proof.
  assert (Hlead : ~ raises (mu_lin_from lead))
    by (intros [e H]; discriminate).
  repeat split.
  - fcalc. reflexivity.
  - rewrite required_thickness_raises_iff. fcalc. discriminate.
  - rewrite optimize_raises_iff. intros [H | [H | [H | H]]];
      [contradiction | contradiction | lia | lia].
  - fcalc. reflexivity.
  - rewrite optimize_raises_iff. intros [H | [H | [H | H]]];
      [contradiction | contradiction | lia | lia].
Qed.

(** the end points of a grid belong to every finer grid: a grid of at most
    two points, or the same grid, is contained in the finer one *)
Lemma grid_points_end_points (m : R) (num num' : Z) (a : float64) :
  (num <= num')%Z -> (num <= 2 \/ num = num')%Z ->
  In a (grid_points m num) -> In a (grid_points m num').
Proof.
  intros Hle Hcase Ha.
  destruct (Z.eq_dec num num') as [<- | Hne]; [assumption|].
  destruct Hcase as [H2 | ?]; [| contradiction].
  assert (H1 : (1 <= num)%Z).
  { unfold grid_points in Ha. apply in_map_iff in Ha.
    destruct Ha as (i & _ & Hi). apply in_seq in Hi. lia. }
  apply (grid_points_nested m num num'); [assumption | | assumption].
  destruct (Z.eq_dec num 1) as [-> | Hne1]; [left; reflexivity|].
  right. replace (num - 1)%Z with 1%Z by lia. apply Z.divide_1_l.
Qed.

(** C7, as the code has it: when each coarser grid has at most two points
    (only the end points 0 and the maximum, which every finer grid contains)
    or is the same grid, the finer search reports an areal density that is
    not greater. *)
Theorem finer_grid_not_worse_from_end_points
    (mat1 mat2 : material) (tg : float64) (m1 m2 : R)
    (steps1 steps2 steps1' steps2' : Z) (d d' : design) :
  F.is_finite (get_density mat1) = true ->
  F.is_finite (get_density mat2) = true ->
  (steps1 <= steps1')%Z -> (steps2 <= steps2')%Z ->
  (steps1 <= 2 \/ steps1 = steps1')%Z ->
  (steps2 <= 2 \/ steps2 = steps2')%Z ->
  optimize_two_materials mat1 mat2 tg (Fin m1) (Fin m2) steps1 steps2
    = Ok (Some d) ->
  optimize_two_materials mat1 mat2 tg (Fin m1) (Fin m2) steps1' steps2'
    = Ok (Some d') ->
  (areal_density_g_per_cm2 d' <=? areal_density_g_per_cm2 d) = true.
Proof.
  intros Hr1 Hr2 Hle1 Hle2 Hend1 Hend2 Hopt Hopt'.
  destruct (optimize_steps_nonneg _ _ _ _ _ _ _ _ Hopt)
    as (_ & _ & [mu1 H1] & [mu2 H2]).
  destruct (optimize_design_inv mat1 mat2 tg m1 m2 steps1 steps2 mu1 mu2 d
              H1 H2 Hr1 Hr2 Hopt) as [Hinv _].
  destruct (optimize_design_inv mat1 mat2 tg m1 m2 steps1' steps2' mu1 mu2 d'
              H1 H2 Hr1 Hr2 Hopt') as [Hinv' _].
  destruct Hinv as [[E _] | (P1 & a0 & P2 & F1 & b0 & F2 & EP & EF & E & _)];
    [discriminate|].
  destruct Hinv' as [[E' _] | (P1' & a0' & P2' & F1' & b0' & F2' & _ & _ & E' & Hle' & _)];
    [discriminate|].
  injection E as _ ->. injection E' as _ ->.
  destruct (filter_pivot_feasible _ _ _ _ _ _ _ _ EF) as [Hb0 Hf0].
  cbn [areal_density_g_per_cm2 candidate].
  apply Hle'; [| | assumption].
  - apply (grid_points_end_points m1 steps1 steps1'); try assumption.
    rewrite EP. apply in_elt.
  - apply (grid_points_end_points m2 steps2 steps2'); assumption.
Qed.

(** C10: a material with 'mu_lin' and no 'density' raises no error for
    its missing density; the default 1.0 is used: the single-material
    solution is the required thickness with an areal density equal to it,
    and in the optimizer the material contributes its bare thickness to the
    areal density, whichever of the two positions it takes; as soon as a
    grid pair meets the target a design is returned, and its areal density
    is at most thickness + density * thickness of that pair. *)
Theorem default_density
    (mat other : material) (mu mu' : float64) :
  mu_lin mat = Some mu -> density mat = None ->
  mu_lin_from other = Ok mu' ->
  (forall tg,
     single_material_solution mat tg
     = (th <- required_thickness_for_target mu tg ;;
        Ok (th, th, transmission_exponential mu th)))
  /\ (forall tg max1 max2 steps1 steps2,
        (0 <= steps1)%Z -> (0 <= steps2)%Z ->
        (exists r,
           optimize_two_materials mat other tg max1 max2 steps1 steps2 = Ok r
           /\ forall d, r = Some d ->
                areal_density_g_per_cm2 d
                = t1_cm d + get_density other * t2_cm d)
        /\ (exists r,
              optimize_two_materials other mat tg max1 max2 steps1 steps2
              = Ok r
              /\ forall d, r = Some d ->
                   areal_density_g_per_cm2 d
                   = get_density other * t1_cm d + t2_cm d))
  /\ (forall tg m1 m2 steps1 steps2 g1 g2 a b,
        F.is_finite (get_density other) = true ->
        Np.linspace (Fin 0) (Fin m1) steps1 = Ok g1 ->
        Np.linspace (Fin 0) (Fin m2) steps2 = Ok g2 ->
        In a g1 -> In b g2 -> feasible mu mu' tg a b = true ->
        exists d,
          optimize_two_materials mat other tg (Fin m1) (Fin m2) steps1 steps2
            = Ok (Some d)
          /\ areal_density_g_per_cm2 d
             = t1_cm d + get_density other * t2_cm d
          /\ (areal_density_g_per_cm2 d <=? a + get_density other * b) = true).
Proof.
  intros Hmu Hd Hother.
  assert (Hrho : get_density mat = Fin 1)
    by (unfold get_density; rewrite Hd; reflexivity).
  pose proof (mu_lin_from_given mat mu Hmu) as Hmat.
  split; [| split].
  - intros tg.
    rewrite (single_material_solution_coefficient mat mu)
      by (left; assumption).
    rewrite Hrho.
    destruct (required_thickness_for_target mu tg) as [th|e]; cbn [bind];
      [| reflexivity].
    rewrite mul_one_l. reflexivity.
  - intros tg max1 max2 steps1 steps2 Hs1 Hs2.
    split; unfold optimize_two_materials;
      rewrite Hmat, Hother; cbn [bind]; rewrite Hrho;
      unfold Np.linspace;
      (destruct (Z.ltb_spec steps1 0) as [|_]; [lia|]);
      (destruct (Z.ltb_spec steps2 0) as [|_]; [lia|]);
      cbn [bind];
      match goal with
      | |- context [search ?a ?b ?c ?e ?f ?g2 ?g1 (None, None)] =>
          destruct (search_shaped a b c e f g2 g1 (None, None))
            as (st & -> & Hshape); [left; reflexivity|]
      end;
      cbn [bind]; (eexists; split; [reflexivity|]);
      intros d Hdes;
      (destruct Hshape as [-> | (a & b & _ & _ & ->)]; [discriminate|]);
      cbn [snd] in Hdes; injection Hdes as <-;
      cbn [areal_density_g_per_cm2 t1_cm t2_cm candidate];
      unfold areal_density; rewrite mul_one_l; reflexivity.
  - intros tg m1 m2 steps1 steps2 g1 g2 a b Hfin Hg1 Hg2 Ha Hb Hf.
    assert (Hs1 : (0 <= steps1)%Z).
    { destruct (Z.ltb_spec steps1 0) as [Hneg|]; [| assumption].
      apply (linspace_raises_iff (Fin 0) (Fin m1)) in Hneg.
      destruct Hneg as [e He]. congruence. }
    assert (Hs2 : (0 <= steps2)%Z).
    { destruct (Z.ltb_spec steps2 0) as [Hneg|]; [| assumption].
      apply (linspace_raises_iff (Fin 0) (Fin m2)) in Hneg.
      destruct Hneg as [e He]. congruence. }
    rewrite linspace_Fin in Hg1, Hg2 by assumption.
    injection Hg1 as <-. injection Hg2 as <-.
    assert (Hfin1 : F.is_finite (get_density mat) = true)
      by (rewrite Hrho; reflexivity).
    destruct (optimize_spec mat other tg m1 m2 steps1 steps2 mu mu'
                Hmat Hother Hs1 Hs2 Hfin1 Hfin) as (st & Hst & Hinv).
    destruct Hinv as [[-> Hno] | (P1 & a0 & P2 & F1 & b0 & F2 & _ & _ & -> & Hle & _)].
    + rewrite (Hno a b Ha Hb) in Hf. discriminate.
    + eexists. split; [exact Hst|].
      cbn [areal_density_g_per_cm2 t1_cm t2_cm candidate].
      specialize (Hle a b Ha Hb Hf). revert Hle.
      unfold areal_density. rewrite Hrho, !mul_one_l.
      intros Hle. split; [reflexivity | exact Hle].
Qed.

(** ** Concrete runs *)

Lemma exp_neg_upper (x : R) : (0 <= x -> exp (- x) <= 1 / (1 + x))%R.
Proof.
  intros Hx. pose proof (exp_ineq1_le x) as H.
  rewrite exp_Ropp. unfold Rdiv. rewrite Rmult_1_l.
  apply Rinv_le_contravar; lra.
Qed.

Lemma exp_neg_lower (x : R) : (x <> 0 -> 1 - x < exp (- x))%R.
Proof. intros Hx. pose proof (exp_ineq1 (- x)). lra. Qed.

Lemma exp_zero_arg (x : R) : x = 0%R -> exp x = 1%R.
Proof. intros ->. apply exp_0. Qed.

Lemma grid_points_6_3 : grid_points 6 3 = [Fin 0; Fin 3; Fin 6].
Proof.
  unfold grid_points, grid_step. zcalc. cbn [seq map INR].
  repeat f_equal; field.
Qed.

Lemma grid_points_6_4 : grid_points 6 4 = [Fin 0; Fin 2; Fin 4; Fin 6].
Proof.
  unfold grid_points, grid_step. zcalc. cbn [seq map INR].
  repeat f_equal; field.
Qed.

Lemma grid_points_one (m : R) : grid_points m 1 = [Fin 0].
Proof.
  unfold grid_points, grid_step. zcalc. cbn [seq map INR].
  repeat f_equal; ring.
Qed.

(** unfold the search on literal grids, deciding each comparison with the
    facts at hand *)
Ltac search_eval :=
  repeat (progress
    (unfold search_row;
     cbn [search map bind fst snd negb orb andb
          Np.any existsb Np.select Np.argmin Np.argmin_from Np.getitem
          nth_error];
     fcalc)).

Lemma absorber_facts :
  (exp (- (1/8) * 0) = 1
   /\ 3/4 < exp (- (1/8) * 2)
   /\ exp (- (1/8) * 3) <= 3/4
   /\ exp (- (1/8) * 4) <= 3/4
   /\ exp (- (1/8) * 6) <= 3/4)%R.
Proof.
  repeat split.
  - apply exp_zero_arg; lra.
  - replace (- (1/8) * 2)%R with (- (1/4))%R by lra.
    pose proof (exp_neg_lower (1/4)). lra.
  - replace (- (1/8) * 3)%R with (- (3/8))%R by lra.
    pose proof (exp_neg_upper (3/8)). lra.
  - replace (- (1/8) * 4)%R with (- (1/2))%R by lra.
    pose proof (exp_neg_upper (1/2)). lra.
  - replace (- (1/8) * 6)%R with (- (3/4))%R by lra.
    pose proof (exp_neg_upper (3/4)). lra.
Qed.

Lemma optimize_absorber_coarse :
  optimize_two_materials absorber absorber (Fin (3/4)) (Fin 6) (Fin 0) 3 1
  = Ok (Some {| t1_cm := Fin 3; t2_cm := Fin 0;
                areal_density_g_per_cm2 := Fin 3;
                transmission := Fin (exp (- (1/8) * 3)) |}).
Proof.
  destruct absorber_facts as (E0 & H2 & H3 & H4 & H6).
  rewrite (optimize_eq absorber absorber _ _ _ _ _ (Fin (1/8)) (Fin (1/8))
             (grid_points 6 3) (grid_points 0 1))
    by (reflexivity || (apply linspace_Fin; lia)).
  rewrite grid_points_6_3, grid_points_one.
  change (get_density absorber) with (Fin 1).
  search_eval. rewrite ?E0. search_eval.
  repeat f_equal; lra.
Qed.

Lemma optimize_absorber_fine :
  optimize_two_materials absorber absorber (Fin (3/4)) (Fin 6) (Fin 0) 4 1
  = Ok (Some {| t1_cm := Fin 4; t2_cm := Fin 0;
                areal_density_g_per_cm2 := Fin 4;
                transmission := Fin (exp (- (1/8) * 4)) |}).
Proof.
  destruct absorber_facts as (E0 & H2 & H3 & H4 & H6).
  rewrite (optimize_eq absorber absorber _ _ _ _ _ (Fin (1/8)) (Fin (1/8))
             (grid_points 6 4) (grid_points 0 1))
    by (reflexivity || (apply linspace_Fin; lia)).
  rewrite grid_points_6_4, grid_points_one.
  change (get_density absorber) with (Fin 1).
  search_eval. rewrite ?E0. search_eval.
  repeat f_equal; lra.
Qed.

(** C7 fails as stated: for the absorber with maximum thickness 6 and
    target 0.75, three steps (grid 0, 3, 6) give areal density 3, four
    steps (grid 0, 2, 4, 6) give 4. *)
Lemma finer_grid_can_be_worse :
  (3 <= 4)%Z /\ (1 <= 1)%Z
  /\ optimize_two_materials absorber absorber (Fin (3/4)) (Fin 6) (Fin 0) 3 1
     = Ok (Some {| t1_cm := Fin 3; t2_cm := Fin 0;
                   areal_density_g_per_cm2 := Fin 3;
                   transmission := Fin (exp (- (1/8) * 3)) |})
  /\ optimize_two_materials absorber absorber (Fin (3/4)) (Fin 6) (Fin 0) 4 1
     = Ok (Some {| t1_cm := Fin 4; t2_cm := Fin 0;
                   areal_density_g_per_cm2 := Fin 4;
                   transmission := Fin (exp (- (1/8) * 4)) |})
  /\ (Fin 4 <=? Fin 3) = false.
Proof.
  split; [lia | split; [lia|]].
  split; [apply optimize_absorber_coarse|].
  split; [apply optimize_absorber_fine|].
  fcalc. reflexivity.
Qed.

Lemma grid_points_6_2 : grid_points 6 2 = [Fin 0; Fin 6].
Proof.
  unfold grid_points, grid_step. zcalc. cbn [seq map INR].
  repeat f_equal; field.
Qed.

Lemma optimize_absorber_two_steps :
  optimize_two_materials absorber absorber (Fin (3/4)) (Fin 6) (Fin 0) 2 1
  = Ok (Some {| t1_cm := Fin 6; t2_cm := Fin 0;
                areal_density_g_per_cm2 := Fin 6;
                transmission := Fin (exp (- (1/8) * 6)) |}).
Proof.
  destruct absorber_facts as (E0 & H2 & H3 & H4 & H6).
  rewrite (optimize_eq absorber absorber _ _ _ _ _ (Fin (1/8)) (Fin (1/8))
             (grid_points 6 2) (grid_points 0 1))
    by (reflexivity || (apply linspace_Fin; lia)).
  rewrite grid_points_6_2, grid_points_one.
  change (get_density absorber) with (Fin 1).
  search_eval. rewrite ?E0. search_eval.
  repeat f_equal; lra.
Qed.

Lemma grid_step_zero (num : Z) : grid_step 0 num = 0%R.
Proof.
  unfold grid_step. destruct (1 <? num)%Z; [|reflexivity].
  unfold Rdiv. apply Rmult_0_l.
Qed.

(** with both maximum thicknesses 0 every grid pair transmits everything,
    so no target below 1 is met *)
Lemma zero_thickness_infeasible (mu1 mu2 tg : R) (s1 s2 : Z) (a b : float64) :
  (tg < 1)%R ->
  In a (grid_points 0 s1) -> In b (grid_points 0 s2) ->
  feasible (Fin mu1) (Fin mu2) (Fin tg) a b = false.
Proof.
  intros Htg Ha Hb. unfold grid_points in *.
  apply in_map_iff in Ha. destruct Ha as (i & <- & _).
  apply in_map_iff in Hb. destruct Hb as (j & <- & _).
  rewrite !grid_step_zero.
  unfold feasible, combined_transmission.
  cbn [F.neg F.mul F.exp F.leb].
  rewrite !exp_zero_arg by ring.
  apply Rleb_false. lra.
Qed.

(** when some grid pair meets the target, a design is returned *)
Lemma optimize_finds_design (mat1 mat2 : material) (tg : float64) (m1 m2 : R)
    (steps1 steps2 : Z) (mu1 mu2 a b : float64) :
  mu_lin_from mat1 = Ok mu1 -> mu_lin_from mat2 = Ok mu2 ->
  (0 <= steps1)%Z -> (0 <= steps2)%Z ->
  F.is_finite (get_density mat1) = true ->
  F.is_finite (get_density mat2) = true ->
  In a (grid_points m1 steps1) -> In b (grid_points m2 steps2) ->
  feasible mu1 mu2 tg a b = true ->
  exists d,
    optimize_two_materials mat1 mat2 tg (Fin m1) (Fin m2) steps1 steps2
    = Ok (Some d).
Proof.
  intros H1 H2 Hs1 Hs2 Hr1 Hr2 Ha Hb Hf.
  destruct (optimize_spec mat1 mat2 tg m1 m2 steps1 steps2 mu1 mu2
              H1 H2 Hs1 Hs2 Hr1 Hr2) as (st & Hst & Hinv).
  destruct Hinv as [[-> Hno] | (P1 & a0 & P2 & F1 & b0 & F2 & _ & _ & -> & _)].
  - rewrite (Hno a b Ha Hb) in Hf. discriminate.
  - eexists. exact Hst.
Qed.

Lemma optimize_two_materials_minimal_witness :
  optimize_two_materials absorber absorber (Fin (3/4)) (Fin 6) (Fin 0) 3 1
  = Ok (Some {| t1_cm := Fin 3; t2_cm := Fin 0;
                areal_density_g_per_cm2 := Fin 3;
                transmission := Fin (exp (- (1/8) * 3)) |})
  /\ (Fin (exp (- (1/8) * 3)) <=? Fin (3/4)) = true
  /\ forall a b,
       In a (grid_points 6 3) -> In b (grid_points 0 1) ->
       feasible (Fin (1/8)) (Fin (1/8)) (Fin (3/4)) a b = true ->
       (Fin 3 <=? areal_density (Fin 1) (Fin 1) a b) = true.
Proof.
  pose proof optimize_absorber_coarse as Hrun.
  split; [exact Hrun|].
  destruct (optimize_two_materials_minimal absorber absorber (Fin (3/4))
              6 0 3 1 (Fin (1/8)) (Fin (1/8))
              (grid_points 6 3) (grid_points 0 1) _
              eq_refl eq_refl
              (linspace_Fin 6 3 ltac:(lia)) (linspace_Fin 0 1 ltac:(lia))
              eq_refl eq_refl Hrun)
    as (_ & _ & _ & Hle & _ & Hmin).
  split; assumption.
Defined.

Lemma optimize_two_materials_no_feasible_witness :
  optimize_two_materials lead lead (Fin (1/2)) (Fin 0) (Fin 0) 201 201
  = Ok None.
Proof.
  apply (optimize_two_materials_no_feasible lead lead (Fin (1/2))
           (Fin 0) (Fin 0) 201 201
           (Fin (0.044 * 11.34)) (Fin (0.044 * 11.34))
           (grid_points 0 201) (grid_points 0 201)).
  - reflexivity.
  - reflexivity.
  - apply linspace_Fin; lia.
  - apply linspace_Fin; lia.
  - intros a b Ha Hb.
    apply (zero_thickness_infeasible _ _ _ 201 201); [lra | assumption | assumption].
Defined.

(** * Further properties of the code *)

(** ** Attenuation model *)

(** X1: For a positive coefficient the required thickness is positive for a
    target below 1, zero at target 1, and negative (returned without error)
    for a target above 1. *)
Theorem required_thickness_sign (mu tg : R) :
  (0 < mu)%R -> (0 < tg)%R ->
  exists th,
    required_thickness_for_target (Fin mu) (Fin tg) = Ok (Fin th)
    /\ ((tg < 1)%R -> (0 < th)%R)
    /\ (tg = 1%R -> th = 0%R)
    /\ ((1 < tg)%R -> (th < 0)%R).
Proof.
  intros Hmu Htg. exists (- ln tg / mu)%R.
  split; [apply required_thickness_Fin; lra|].
  assert (Hinv : (0 < / mu)%R) by (apply Rinv_0_lt_compat; assumption).
  unfold Rdiv. repeat split.
  - intros H1. pose proof (ln_neg tg (conj Htg H1)).
    apply Rmult_lt_0_compat; lra.
  - intros ->. rewrite ln_1. ring.
  - intros H1. assert (0 < ln tg)%R by (rewrite <- ln_1; apply ln_increasing; lra).
    replace (- ln tg * / mu)%R with (- (ln tg * / mu))%R by ring.
    apply Ropp_lt_gt_0_contravar. apply Rmult_lt_0_compat; lra.
Qed.

Lemma required_thickness_sign_witness :
  (0 < 2)%R /\ (0 < 1)%R
  /\ exists th,
       required_thickness_for_target (Fin 2) (Fin 1) = Ok (Fin th)
       /\ th = 0%R.
Proof.
  split; [lra | split; [lra|]].
  destruct (required_thickness_sign 2 1 ltac:(lra) ltac:(lra))
    as (th & Hth & _ & H1 & _).
  exists th. split; [exact Hth | apply H1; reflexivity].
Defined.

(** X2: A stricter target never needs a thinner shield: for a positive
    coefficient the required thickness is non-increasing in the target. *)
Theorem required_thickness_monotone (mu tg1 tg2 : R) :
  (0 < mu)%R -> (0 < tg1 <= tg2)%R ->
  exists th1 th2,
    required_thickness_for_target (Fin mu) (Fin tg1) = Ok (Fin th1)
    /\ required_thickness_for_target (Fin mu) (Fin tg2) = Ok (Fin th2)
    /\ (Fin th2 <=? Fin th1) = true.
Proof.
  intros Hmu [H1 H12].
  exists (- ln tg1 / mu)%R, (- ln tg2 / mu)%R.
  rewrite !required_thickness_Fin by lra.
  repeat split.
  assert (Hln : (ln tg1 <= ln tg2)%R).
  { destruct H12 as [Hlt | ->]; [left; apply ln_increasing; lra | lra]. }
  assert (Hinv : (0 < / mu)%R) by (apply Rinv_0_lt_compat; assumption).
  cbn [F.leb]. apply Rleb_true.
  unfold Rdiv. apply Rmult_le_compat_r; lra.
Qed.

Lemma required_thickness_monotone_witness :
  (0 < 1)%R /\ (0 < 1/4 <= 1/2)%R
  /\ exists th1 th2,
       required_thickness_for_target (Fin 1) (Fin (1/4)) = Ok (Fin th1)
       /\ required_thickness_for_target (Fin 1) (Fin (1/2)) = Ok (Fin th2)
       /\ (Fin th2 <=? Fin th1) = true.
Proof.
  split; [lra | split; [lra|]].
  apply (required_thickness_monotone 1 (1/4) (1/2)); lra.
Defined.

(** X5: For non-negative coefficient and thickness the transmission is a
    finite value of [0, 1]; it does not grow when the coefficient or the
    thickness grows; and at thickness 0 it is 1. *)
Theorem transmission_range_and_order (mu mu' t t' : R) :
  (0 <= mu <= mu')%R -> (0 <= t <= t')%R ->
  (exists p, transmission_exponential (Fin mu) (Fin t) = Fin p
             /\ (0 <= p <= 1)%R)
  /\ (transmission_exponential (Fin mu') (Fin t')
        <=? transmission_exponential (Fin mu) (Fin t)) = true
  /\ transmission_exponential (Fin mu) (Fin 0) = Fin 1.
Proof.
  intros Hmu Ht. rewrite !transmission_exponential_Fin.
  split; [| split].
  - exists (exp (- mu * t)). split; [reflexivity|].
    replace (- mu * t)%R with (- (mu * t))%R by ring.
    pose proof (exp_neg_unit_interval (mu * t)) as H.
    assert (0 <= mu * t)%R by (apply Rmult_le_pos; lra). lra.
  - cbn [F.leb]. apply Rleb_true.
    assert (Hle : (- mu' * t' <= - mu * t)%R) by nra.
    destruct Hle as [Hlt | Heq]; [left; apply exp_increasing; assumption|].
    rewrite Heq. lra.
  - f_equal. apply exp_zero_arg. ring.
Qed.

Lemma transmission_range_and_order_witness :
  (0 <= 1 <= 2)%R /\ (0 <= 1 <= 3)%R
  /\ (transmission_exponential (Fin 2) (Fin 3)
        <=? transmission_exponential (Fin 1) (Fin 1)) = true.
Proof.
  split; [lra | split; [lra|]].
  apply (transmission_range_and_order 1 2 1 3); lra.
Defined.

(** ** Monte Carlo validator *)

Lemma seeded_state_valid (seeding : Z -> rng_state) (st : rng_state)
    (seed : option Z) :
  valid_seed seed ->
  match seed with
  | Some sd => Np.random_seed seeding sd
  | None => Ok st
  end = Ok (state_in_use seeding st seed).
Proof.
  destruct seed as [sd|]; intros Hseed; [| reflexivity].
  apply random_seed_valid. assumption.
Qed.

(** what a run with an accepted seed and a non-negative sample count
    returns, and the generator state it leaves *)
Lemma mc_transmission_value (seeding : Z -> rng_state) (st : rng_state)
    (mu thickness : float64) (N : Z) (seed : option Z) :
  valid_seed seed -> (0 <= N)%Z ->
  let used := state_in_use seeding st seed in
  let p := F.of_nat (transmitted_count used mu thickness N) / F.of_Z N in
  mc_transmission seeding st mu thickness N seed
  = (Ok (p, F.sqrt (p * (Fin 1 - p) / F.of_Z N)),
     fun i => used (Z.to_nat N + i)%nat).
Proof.
  intros Hseed HN used p. unfold mc_transmission.
  rewrite (seeded_state_valid seeding st seed Hseed).
  unfold Np.random_random.
  destruct (Z.ltb_spec N 0); [lia|]. reflexivity.
Qed.

Lemma sum_bool_map {A : Type} (p : A -> bool) (l : list A) :
  Np.sum_bool (map p l) = length (filter p l).
Proof.
  unfold Np.sum_bool.
  induction l as [|x l IH]; cbn [map filter]; [reflexivity|].
  destruct (p x); cbn [length]; rewrite IH; reflexivity.
Qed.

Lemma filter_length_le {A : Type} (p : A -> bool) (l : list A) :
  (length (filter p l) <= length l)%nat.
Proof.
  induction l as [|x l IH]; cbn [filter length]; [lia|].
  destruct (p x); cbn [length]; lia.
Qed.

Lemma filter_length_mono {A : Type} (p q : A -> bool) (l : list A) :
  (forall x, p x = true -> q x = true) ->
  (length (filter p l) <= length (filter q l))%nat.
Proof.
  intros Hpq. induction l as [|x l IH]; cbn [filter length]; [lia|].
  destruct (p x) eqn:Hp.
  - rewrite (Hpq x Hp). cbn [length]. lia.
  - destruct (q x); cbn [length]; lia.
Qed.

Lemma transmitted_count_le (st : rng_state) (mu thickness : float64) (N : Z) :
  (transmitted_count st mu thickness N <= Z.to_nat N)%nat.
Proof.
  unfold transmitted_count, path_lengths.
  rewrite sum_bool_map.
  etransitivity; [apply filter_length_le|].
  rewrite !length_map, length_seq. lia.
Qed.

Lemma INR_to_nat (N : Z) : (0 <= N)%Z -> INR (Z.to_nat N) = IZR N.
Proof. intros HN. rewrite INR_IZR_INZ, Z2Nat.id by assumption. reflexivity. Qed.

(** the estimate of a run with at least one sample, as real numbers *)
Lemma mc_transmission_Fin (seeding : Z -> rng_state) (st : rng_state)
    (mu thickness : float64) (N : Z) (seed : option Z) :
  valid_seed seed -> (0 < N)%Z ->
  let p := (INR (transmitted_count (state_in_use seeding st seed)
                   mu thickness N) / IZR N)%R in
  fst (mc_transmission seeding st mu thickness N seed)
    = Ok (Fin p, Fin (sqrt (p * (1 - p) / IZR N)))
  /\ (0 <= p <= 1)%R.
Proof.
  intros Hseed HN p.
  assert (HNr : (0 < IZR N)%R) by (apply IZR_lt; lia).
  assert (Hp : (0 <= p <= 1)%R).
  { unfold p.
    pose proof (transmitted_count_le (state_in_use seeding st seed)
                  mu thickness N) as Hc.
    apply le_INR in Hc. rewrite INR_to_nat in Hc by lia.
    pose proof (pos_INR (transmitted_count (state_in_use seeding st seed)
                           mu thickness N)).
    split.
    - apply Rmult_le_pos; [assumption | left; apply Rinv_0_lt_compat; lra].
    - apply Rmult_le_reg_r with (IZR N); [assumption|].
      unfold Rdiv. rewrite Rmult_assoc, Rinv_l by lra. lra. }
  split; [| exact Hp].
  rewrite mc_transmission_value by (assumption || lia). cbn [fst].
  unfold F.of_nat, F.of_Z. rewrite div_Fin by lra. fold p.
  cbn [F.sub F.neg F.add F.mul]. rewrite div_Fin by lra.
  assert (Hq : (0 <= p * (1 + - p) / IZR N)%R).
  { apply Rmult_le_pos; [nra | left; apply Rinv_0_lt_compat; lra]. }
  cbn [F.sqrt]. rewrite (proj2 (Rleb_true _ _) Hq).
  do 4 f_equal.
Qed.

(** X6: With an accepted seed and no samples the estimator raises nothing
    and returns (nan, nan): the fraction is 0/0. *)
Theorem mc_transmission_no_samples
    (seeding : Z -> rng_state) (st : rng_state) (mu thickness : float64)
    (seed : option Z) :
  valid_seed seed ->
  fst (mc_transmission seeding st mu thickness 0 seed) = Ok (NaN, NaN).
Proof.
  intros Hseed.
  rewrite mc_transmission_value by (assumption || lia). cbn [fst].
  unfold transmitted_count, path_lengths.
  change (Z.to_nat 0) with 0%nat. cbn [seq map Np.sum_bool filter length].
  fcalc. reflexivity.
Qed.

Lemma mc_transmission_no_samples_witness :
  valid_seed (Some 42%Z)
  /\ fst (mc_transmission (fun _ _ => (1/2)%R) (fun _ => (1/3)%R)
            (Fin 2) (Fin 3) 0 (Some 42%Z)) = Ok (NaN, NaN).
Proof.
  assert (Hseed : valid_seed (Some 42%Z)) by (cbn; lia).
  split; [exact Hseed|].
  apply (mc_transmission_no_samples (fun _ _ => (1/2)%R) (fun _ => (1/3)%R)
           (Fin 2) (Fin 3) (Some 42%Z) Hseed).
Defined.

(** X7: With an accepted seed and at least one sample the estimate is a
    finite proportion in [0, 1] and the reported standard error is finite,
    between 0 and 1/2, whatever the coefficient, thickness and variates. *)
Theorem mc_transmission_is_proportion
    (seeding : Z -> rng_state) (st : rng_state) (mu thickness : float64)
    (N : Z) (seed : option Z) :
  valid_seed seed -> (0 < N)%Z ->
  exists p se,
    fst (mc_transmission seeding st mu thickness N seed) = Ok (Fin p, Fin se)
    /\ (0 <= p <= 1)%R
    /\ (0 <= se <= 1 / 2)%R.
Proof.
  intros Hseed HN.
  destruct (mc_transmission_Fin seeding st mu thickness N seed Hseed HN)
    as [Hrun Hp].
  cbv zeta in Hrun, Hp.
  set (p := (INR (transmitted_count (state_in_use seeding st seed)
                    mu thickness N) / IZR N)%R) in *.
  clearbody p.
  assert (HNr : (1 <= IZR N)%R) by (apply IZR_le; lia).
  assert (Hinv : (0 < / IZR N <= 1)%R).
  { split; [apply Rinv_0_lt_compat; lra|].
    rewrite <- Rinv_1. apply Rinv_le_contravar; lra. }
  assert (Hquarter : (0 <= p * (1 - p) <= 1 / 4)%R).
  { pose proof (Rle_0_sqr (p - 1 / 2)) as Hsq. unfold Rsqr in Hsq.
    split; [nra | lra]. }
  assert (Hq : (0 <= p * (1 - p) / IZR N <= 1 / 4)%R)
    by (unfold Rdiv; split; nra).
  exists p, (sqrt (p * (1 - p) / IZR N)).
  split; [exact Hrun|]. split; [exact Hp|].
  split; [apply sqrt_pos|].
  replace (1 / 2)%R with (sqrt (1 / 4)).
  - apply sqrt_le_1; lra.
  - replace (1 / 4)%R with ((1 / 2) * (1 / 2))%R by lra.
    apply sqrt_square. lra.
Qed.

Lemma mc_transmission_is_proportion_witness :
  valid_seed (Some 42%Z) /\ (0 < 1000)%Z
  /\ exists p se,
       fst (mc_transmission (fun _ _ => (1/2)%R) (fun _ => (1/3)%R)
              (Fin 2) (Fin 3) 1000 (Some 42%Z)) = Ok (Fin p, Fin se)
       /\ (0 <= p <= 1)%R /\ (0 <= se <= 1 / 2)%R.
Proof.
  assert (Hseed : valid_seed (Some 42%Z)) by (cbn; lia).
  split; [exact Hseed | split; [lia|]].
  apply (mc_transmission_is_proportion (fun _ _ => (1/2)%R)
           (fun _ => (1/3)%R) (Fin 2) (Fin 3) 1000 (Some 42%Z) Hseed).
  lia.
Defined.

Lemma leb_ltb_trans x y z :
  (x <=? y) = true -> (y <? z) = true -> (x <? z) = true.
Proof. ford. Qed.

(** for a positive coefficient and a variate in [0, 1) the sampled path
    length is strictly positive (infinite for the variate 0) *)
Lemma path_positive (mu u : R) :
  (0 < mu)%R -> (0 <= u < 1)%R ->
  ((- F.log (Fin u) / Fin mu) >? Fin 0) = true.
Proof.
  intros Hmu [[Hu | <-] Hu1]; unfold F.gtb; cbn [F.log].
  - rbool. cbn [F.neg]. rewrite div_Fin by lra. cbn [F.ltb].
    apply Rltb_true. pose proof (ln_neg u (conj Hu Hu1)).
    apply Rmult_lt_0_compat; [lra | apply Rinv_0_lt_compat; assumption].
  - rbool. cbn [F.neg F.div]. rbool. reflexivity.
Qed.

(** X9: A slab of thickness 0 transmits every particle: for a positive
    coefficient, an accepted seed, variates in [0, 1) and at least one
    sample the estimate is 1 with standard error 0. *)
Theorem mc_transmission_zero_thickness
    (seeding : Z -> rng_state) (st : rng_state) (mu : R) (N : Z)
    (seed : option Z) :
  (0 < mu)%R -> valid_seed seed ->
  (forall i, (0 <= state_in_use seeding st seed i < 1)%R) -> (0 < N)%Z ->
  fst (mc_transmission seeding st (Fin mu) (Fin 0) N seed)
  = Ok (Fin 1, Fin 0).
Proof.
  intros Hmu Hseed HU HN.
  destruct (mc_transmission_Fin seeding st (Fin mu) (Fin 0) N seed Hseed HN)
    as [Hrun _].
  cbv zeta in Hrun. rewrite Hrun.
  assert (Hcount : transmitted_count (state_in_use seeding st seed)
                     (Fin mu) (Fin 0) N = Z.to_nat N).
  { unfold transmitted_count, path_lengths.
    rewrite !map_map, sum_bool_map.
    transitivity (length (seq 0 (Z.to_nat N))); [| apply length_seq].
    f_equal. apply forallb_filter_id. apply forallb_forall. intros i _.
    apply path_positive; [assumption | apply HU]. }
  rewrite Hcount, INR_to_nat by lia.
  assert (HNr : (0 < IZR N)%R) by (apply IZR_lt; lia).
  replace (IZR N / IZR N)%R with 1%R by (field; lra).
  replace (1 * (1 - 1) / IZR N)%R with 0%R by (field; lra).
  rewrite sqrt_0. reflexivity.
Qed.

Lemma mc_transmission_zero_thickness_witness :
  (0 < 2)%R /\ valid_seed (Some 42%Z)
  /\ (forall i : nat, (0 <= 1/2 < 1)%R) /\ (0 < 1000)%Z
  /\ fst (mc_transmission (fun _ _ => (1/2)%R) (fun _ => (1/3)%R)
            (Fin 2) (Fin 0) 1000 (Some 42%Z)) = Ok (Fin 1, Fin 0).
Proof.
  assert (Hseed : valid_seed (Some 42%Z)) by (cbn; lia).
  split; [lra | split; [exact Hseed | split; [intros _; lra | split; [lia|]]]].
  apply (mc_transmission_zero_thickness (fun _ _ => (1/2)%R)
           (fun _ => (1/3)%R) 2 1000 (Some 42%Z));
    [lra | exact Hseed | intros i; cbn [state_in_use]; lra | lia].
Defined.

(** X10: Started in the same generator state with the same accepted seed,
    a run with a thicker slab never reports a larger estimate, whatever
    the coefficient. *)
Theorem mc_transmission_monotone_in_thickness
    (seeding : Z -> rng_state) (st : rng_state) (mu th1 th2 : float64)
    (N : Z) (seed : option Z) :
  valid_seed seed -> (0 < N)%Z -> (th1 <=? th2) = true ->
  exists p1 se1 p2 se2,
    fst (mc_transmission seeding st mu th1 N seed) = Ok (p1, se1)
    /\ fst (mc_transmission seeding st mu th2 N seed) = Ok (p2, se2)
    /\ (p2 <=? p1) = true.
Proof.
  intros Hseed HN Hth.
  destruct (mc_transmission_Fin seeding st mu th1 N seed Hseed HN)
    as [Hrun1 _].
  destruct (mc_transmission_Fin seeding st mu th2 N seed Hseed HN)
    as [Hrun2 _].
  cbv zeta in Hrun1, Hrun2.
  do 4 eexists. split; [exact Hrun1 | split; [exact Hrun2|]].
  cbn [F.leb]. apply Rleb_true.
  assert (HNr : (0 < IZR N)%R) by (apply IZR_lt; lia).
  apply Rmult_le_compat_r; [left; apply Rinv_0_lt_compat; assumption|].
  apply le_INR. unfold transmitted_count. rewrite !sum_bool_map.
  apply filter_length_mono. intros s Hs. unfold F.gtb in *.
  eapply leb_ltb_trans; eassumption.
Qed.

Lemma mc_transmission_monotone_in_thickness_witness :
  valid_seed (Some 42%Z) /\ (0 < 1000)%Z /\ (Fin 1 <=? Fin 3) = true
  /\ exists p1 se1 p2 se2,
       fst (mc_transmission (fun _ _ => (1/2)%R) (fun _ => (1/3)%R)
              (Fin 2) (Fin 1) 1000 (Some 42%Z)) = Ok (p1, se1)
       /\ fst (mc_transmission (fun _ _ => (1/2)%R) (fun _ => (1/3)%R)
                 (Fin 2) (Fin 3) 1000 (Some 42%Z)) = Ok (p2, se2)
       /\ (p2 <=? p1) = true.
Proof.
  assert (Hseed : valid_seed (Some 42%Z)) by (cbn; lia).
  assert (H13 : (Fin 1 <=? Fin 3) = true) by (fcalc; reflexivity).
  split; [exact Hseed | split; [lia | split; [exact H13|]]].
  apply (mc_transmission_monotone_in_thickness (fun _ _ => (1/2)%R)
           (fun _ => (1/3)%R) (Fin 2) (Fin 1) (Fin 3) 1000 (Some 42%Z));
    [exact Hseed | lia | exact H13].
Defined.

(** X27: A seed makes the run reproducible: with an accepted seed the
    result and the generator state left behind do not depend on the state
    the generator was in; without a seed the run draws the next N variates
    of the current state and leaves the generator advanced by N. *)
Theorem mc_transmission_generator_state
    (seeding : Z -> rng_state) (st st' : rng_state) (mu thickness : float64)
    (N : Z) (sd : Z) :
  valid_seed (Some sd) -> (0 <= N)%Z ->
  mc_transmission seeding st mu thickness N (Some sd)
  = mc_transmission seeding st' mu thickness N (Some sd)
  /\ snd (mc_transmission seeding st mu thickness N (Some sd))
     = (fun i => seeding sd (Z.to_nat N + i)%nat)
  /\ snd (mc_transmission seeding st mu thickness N None)
     = (fun i => st (Z.to_nat N + i)%nat).
Proof.
  intros Hseed HN.
  rewrite (mc_transmission_value seeding st mu thickness N (Some sd))
    by assumption.
  rewrite (mc_transmission_value seeding st' mu thickness N (Some sd))
    by assumption.
  rewrite (mc_transmission_value seeding st mu thickness N None)
    by (exact I || assumption).
  repeat split.
Qed.

Lemma mc_transmission_generator_state_witness :
  valid_seed (Some 42%Z) /\ (0 <= 1000)%Z
  /\ mc_transmission (fun _ _ => (1/2)%R) (fun _ => (1/3)%R)
       (Fin 2) (Fin 3) 1000 (Some 42%Z)
     = mc_transmission (fun _ _ => (1/2)%R) (fun _ => (1/4)%R)
         (Fin 2) (Fin 3) 1000 (Some 42%Z).
Proof.
  assert (Hseed : valid_seed (Some 42%Z)) by (cbn; lia).
  split; [exact Hseed | split; [lia|]].
  apply (mc_transmission_generator_state (fun _ _ => (1/2)%R)
           (fun _ => (1/3)%R) (fun _ => (1/4)%R) (Fin 2) (Fin 3) 1000 42);
    [exact Hseed | lia].
Defined.

(** ** Single-material solver: errors *)

(** X11: [single_material_solution] raises exactly when the material has neither
    'mu_lin' nor both 'mu_mass' and 'density', or the target is <= 0; the
    exception is a ValueError in every case. *)
Theorem single_material_solution_errors (m : material) (tg : float64) :
  (raises (single_material_solution m tg)
   <-> (mu_lin m = None /\ (mu_mass m = None \/ density m = None))
       \/ (tg <=? Fin 0) = true)
  /\ (forall e, single_material_solution m tg = Raise e ->
        exists msg, e = ValueError msg).
Proof.
  unfold single_material_solution, required_thickness_for_target, raises.
  destruct (mu_lin m) as [mu|]; [| destruct (mu_mass m) as [mm|];
    [destruct (density m) as [d|] |]]; cbn [bind];
    try (destruct (tg <=? Fin 0); cbn [bind]).
  all: split;
    [ split;
      [ intros [e He]; try discriminate;
        first [ right; reflexivity
              | left; split; [reflexivity | first [left; reflexivity | right; reflexivity]] ]
      | intros [[H1 [H2 | H2]] | H]; try discriminate; eexists; reflexivity ]
    | intros e He; try discriminate; injection He as <-; eexists; reflexivity ].
Qed.

(** ** Precomputing the linear coefficient *)

Lemma precompute_mu_lin_inv (m m' : material) :
  precompute_mu_lin m = Ok m' ->
  (exists mu, mu_lin m' = Some mu /\ has_linear_coefficient m mu)
  /\ density m' = density m /\ mu_mass m' = mu_mass m /\ name m' = name m.
Proof.
  unfold precompute_mu_lin, has_linear_coefficient.
  destruct (mu_lin m) as [mu|] eqn:Hmu.
  - intros H; injection H as <-. split; [| auto].
    exists mu. split; [assumption | left; reflexivity].
  - destruct (mu_mass m) as [mm|] eqn:Hmm; cbn [getkey bind]; [| discriminate].
    destruct (density m) as [d|] eqn:Hd; cbn [getkey bind]; [| discriminate].
    intros H; injection H as <-. cbn [mu_lin density mu_mass name].
    split; [| auto].
    eexists. split; [reflexivity|].
    right. split; [reflexivity|]. exists mm, d. auto.
Qed.

Lemma mu_lin_from_coefficient (m : material) (mu : float64) :
  has_linear_coefficient m mu -> mu_lin_from m = Ok mu.
Proof.
  unfold mu_lin_from.
  intros [H | [H (mm & d & Hmm & Hd & ->)]]; rewrite H; [reflexivity|].
  rewrite Hmm, Hd. reflexivity.
Qed.

(** X12: Caching the derived coefficient on a material changes no result: the
    solvers return for the updated record what they return for the original
    one, in either optimizer position, and a second precomputation leaves
    the record as it is. *)
Theorem precompute_preserves_solutions (m m' : material) :
  precompute_mu_lin m = Ok m' ->
  mu_lin m' <> None
  /\ (forall tg, single_material_solution m' tg = single_material_solution m tg)
  /\ (forall other tg max1 max2 steps1 steps2,
        optimize_two_materials m' other tg max1 max2 steps1 steps2
        = optimize_two_materials m other tg max1 max2 steps1 steps2
        /\ optimize_two_materials other m' tg max1 max2 steps1 steps2
           = optimize_two_materials other m tg max1 max2 steps1 steps2)
  /\ precompute_mu_lin m' = Ok m'.
Proof.
  intros Hpre.
  destruct (precompute_mu_lin_inv m m' Hpre)
    as ((mu & Hmu' & Hcoef) & Hd & _ & _).
  assert (Hrho : get_density m' = get_density m)
    by (unfold get_density; rewrite Hd; reflexivity).
  assert (Hfrom : mu_lin_from m' = mu_lin_from m)
    by (rewrite (mu_lin_from_given m' mu Hmu'),
                (mu_lin_from_coefficient m mu Hcoef); reflexivity).
  split; [rewrite Hmu'; discriminate|].
  split; [| split].
  - intros tg.
    rewrite (single_material_solution_coefficient m' mu) by (left; assumption).
    rewrite (single_material_solution_coefficient m mu) by assumption.
    rewrite Hrho. reflexivity.
  - intros other tg max1 max2 steps1 steps2.
    unfold optimize_two_materials. rewrite Hfrom, Hrho. split; reflexivity.
  - unfold precompute_mu_lin. rewrite Hmu'. reflexivity.
Qed.

Lemma precompute_preserves_solutions_witness :
  precompute_mu_lin lead
  = Ok {| name := "Lead"; density := Some (Fin 11.34);
          mu_mass := Some (Fin 0.044);
          mu_lin := Some (Fin 0.044 * Fin 11.34) |}
  /\ forall tg,
       single_material_solution
         {| name := "Lead"; density := Some (Fin 11.34);
            mu_mass := Some (Fin 0.044);
            mu_lin := Some (Fin 0.044 * Fin 11.34) |} tg
       = single_material_solution lead tg.
Proof.
  split; [reflexivity|].
  apply (precompute_preserves_solutions lead _ eq_refl).
Defined.

(** X13: The table loop succeeds exactly when every entry has 'mu_lin' or both
    'mu_mass' and 'density' (else a KeyError is raised); it keeps the keys
    and leaves every entry with a 'mu_lin'. *)
Theorem precompute_table_spec (table : list (string * material)) :
  (returns (precompute_table table)
   <-> Forall (fun e => mu_lin (snd e) <> None
                        \/ (mu_mass (snd e) <> None /\ density (snd e) <> None))
              table)
  /\ (forall e, precompute_table table = Raise e -> exists k, e = KeyError k)
  /\ (forall table', precompute_table table = Ok table' ->
        map fst table' = map fst table
        /\ Forall (fun e => mu_lin (snd e) <> None) table').
Proof.
  induction table as [|[key m] rest (IHret & IHerr & IHok)].
  - repeat split.
    + constructor.
    + intros _. eexists; reflexivity.
    + intros e H; discriminate.
    + injection H as <-. reflexivity.
    + injection H as <-. constructor.
  - cbn [precompute_table].
    destruct (precompute_mu_lin m) as [m'|e0] eqn:Hm; cbn [bind].
    + destruct (precompute_mu_lin_inv m m' Hm) as ((mu & Hmu' & Hcoef) & _).
      assert (Hhas : mu_lin m <> None
                     \/ (mu_mass m <> None /\ density m <> None)).
      { destruct Hcoef as [H | [_ (mm & d & Hmm & Hd & _)]].
        - left; rewrite H; discriminate.
        - right; rewrite Hmm, Hd; split; discriminate. }
      destruct (precompute_table rest) as [rest'|e1]; cbn [bind].
      * split; [| split].
        -- split; [| intros _; eexists; reflexivity].
           intros _. constructor; [exact Hhas|].
           apply IHret. eexists; reflexivity.
        -- intros e H; discriminate.
        -- intros table' H. injection H as <-.
           destruct (IHok rest' eq_refl) as [Hkeys Hall].
           cbn [map fst snd]. split; [rewrite Hkeys; reflexivity|].
           constructor; [cbn [snd]; rewrite Hmu'; discriminate | assumption].
      * split; [| split].
        -- split; [intros [a H]; discriminate|].
           intros Hall. inversion Hall as [|? ? _ Hrest]; subst.
           apply IHret in Hrest. destruct Hrest as [a H]. discriminate.
        -- intros e H. injection H as <-. apply IHerr. reflexivity.
        -- intros table' H; discriminate.
    + split; [| split].
      * split; [intros [a H]; discriminate|].
        intros Hall. inversion Hall as [|? ? Hhead _]; subst. cbn [snd] in Hhead.
        unfold precompute_mu_lin in Hm.
        destruct (mu_lin m); [discriminate|].
        destruct Hhead as [H | [H1 H2]]; [congruence|].
        destruct (mu_mass m); [| congruence].
        destruct (density m); [| congruence].
        discriminate.
      * intros e H. injection H as <-.
        unfold precompute_mu_lin in Hm.
        destruct (mu_lin m); [discriminate|].
        destruct (mu_mass m); cbn [getkey bind] in Hm;
          [| injection Hm as <-; eexists; reflexivity].
        destruct (density m); cbn [getkey bind] in Hm;
          [discriminate | injection Hm as <-; eexists; reflexivity].
      * intros table' H; discriminate.
Qed.

(** ** Optimizer: errors and empty grids *)

(** X14: A material without coefficient makes the optimizer fail with a KeyError
    for the first key it misses ('mu_mass', else 'density'), in either
    position, where [single_material_solution] raises a ValueError. *)
Theorem optimize_missing_coefficient
    (m other : material) (tg max1 max2 : float64) (steps1 steps2 : Z) :
  mu_lin m = None -> (mu_mass m = None \/ density m = None) ->
  let key := match mu_mass m with
             | None => "mu_mass"%string
             | Some _ => "density"%string
             end in
  optimize_two_materials m other tg max1 max2 steps1 steps2
    = Raise (KeyError key)
  /\ (returns (mu_lin_from other) ->
      optimize_two_materials other m tg max1 max2 steps1 steps2
      = Raise (KeyError key))
  /\ exists msg, single_material_solution m tg = Raise (ValueError msg).
Proof.
  intros Hlin Hmiss key.
  assert (Hfrom : mu_lin_from m = Raise (KeyError key)).
  { unfold mu_lin_from, key. rewrite Hlin.
    destruct (mu_mass m) as [mm|]; cbn [getkey bind]; [| reflexivity].
    destruct Hmiss as [H | H]; [discriminate|]. rewrite H. reflexivity. }
  split; [| split].
  - unfold optimize_two_materials. rewrite Hfrom. reflexivity.
  - intros [mu Hother]. unfold optimize_two_materials.
    rewrite Hother, Hfrom. reflexivity.
  - unfold single_material_solution. rewrite Hlin.
    destruct (mu_mass m) as [mm|]; [| eexists; reflexivity].
    destruct Hmiss as [H | H]; [discriminate|]. rewrite H.
    eexists; reflexivity.
Qed.

Lemma optimize_missing_coefficient_witness :
  optimize_two_materials unspecified lead (Fin (1/2)) (Fin 50) (Fin 50) 201 201
    = Raise (KeyError "mu_mass")
  /\ optimize_two_materials lead unspecified (Fin (1/2)) (Fin 50) (Fin 50)
       201 201
     = Raise (KeyError "mu_mass").
Proof.
  destruct (optimize_missing_coefficient unspecified lead (Fin (1/2))
              (Fin 50) (Fin 50) 201 201 eq_refl (or_introl eq_refl))
    as (H1 & H2 & _).
  split; [exact H1|].
  apply H2. eexists; reflexivity.
Defined.

Lemma linspace_returns (start stop : float64) (num : Z) :
  (0 <= num)%Z -> exists g, Np.linspace start stop num = Ok g.
Proof.
  intros Hnum. unfold Np.linspace.
  destruct (Z.ltb_spec num 0); [lia|]. eexists; reflexivity.
Qed.

(** X15: A step count of 0 gives an empty grid: the optimizer returns [None]
    whatever the target and the thickness bounds. *)
Theorem optimize_empty_grid
    (mat1 mat2 : material) (tg max1 max2 : float64) (steps1 steps2 : Z) :
  returns (mu_lin_from mat1) -> returns (mu_lin_from mat2) ->
  (0 <= steps1)%Z -> (0 <= steps2)%Z ->
  (steps1 = 0 \/ steps2 = 0)%Z ->
  optimize_two_materials mat1 mat2 tg max1 max2 steps1 steps2 = Ok None.
Proof.
  intros [mu1 H1] [mu2 H2] Hs1 Hs2 Hzero.
  destruct (linspace_returns (Fin 0) max1 steps1 Hs1) as [g1 Hg1].
  destruct (linspace_returns (Fin 0) max2 steps2 Hs2) as [g2 Hg2].
  rewrite (optimize_eq _ _ _ _ _ _ _ _ _ _ _ H1 H2 Hg1 Hg2).
  rewrite search_infeasible; [reflexivity|].
  intros a b Ha Hb. exfalso.
  destruct Hzero as [-> | ->].
  - unfold Np.linspace in Hg1. cbn in Hg1. injection Hg1 as <-. destruct Ha.
  - unfold Np.linspace in Hg2. cbn in Hg2. injection Hg2 as <-. destruct Hb.
Qed.

Lemma optimize_empty_grid_witness :
  optimize_two_materials lead lead (Fin 2) (Fin 50) (Fin 50) 0 201 = Ok None.
Proof.
  apply (optimize_empty_grid lead lead (Fin 2) (Fin 50) (Fin 50) 0 201);
    [eexists; reflexivity | eexists; reflexivity | lia | lia | left; reflexivity].
Defined.

(** ** Optimizer: the returned design *)

(** what a returned design is, in terms of the two grids *)
Lemma optimize_design_facts (mat1 mat2 : material) (tg : float64) (m1 m2 : R)
    (steps1 steps2 : Z) (mu1 mu2 : float64) (d : design) :
  mu_lin_from mat1 = Ok mu1 -> mu_lin_from mat2 = Ok mu2 ->
  F.is_finite (get_density mat1) = true ->
  F.is_finite (get_density mat2) = true ->
  optimize_two_materials mat1 mat2 tg (Fin m1) (Fin m2) steps1 steps2
    = Ok (Some d) ->
  exists a0 b0,
    d = candidate mu1 mu2 (get_density mat1) (get_density mat2) a0 b0
    /\ In a0 (grid_points m1 steps1) /\ In b0 (grid_points m2 steps2)
    /\ feasible mu1 mu2 tg a0 b0 = true
    /\ forall a b, In a (grid_points m1 steps1) -> In b (grid_points m2 steps2) ->
         feasible mu1 mu2 tg a b = true ->
         (areal_density (get_density mat1) (get_density mat2) a0 b0
            <=? areal_density (get_density mat1) (get_density mat2) a b) = true.
Proof.
  intros H1 H2 Hr1 Hr2 Hopt.
  destruct (optimize_design_inv mat1 mat2 tg m1 m2 steps1 steps2 mu1 mu2 d
              H1 H2 Hr1 Hr2 Hopt) as [Hinv _].
  destruct Hinv as [[E _] | (P1 & a0 & P2 & F1 & b0 & F2 & EP & EF & E & Hle & _)];
    [discriminate|].
  injection E as _ ->.
  destruct (filter_pivot_feasible _ _ _ _ _ _ _ _ EF) as [Hb0 Hf0].
  exists a0, b0. repeat split; try assumption.
  rewrite EP. apply in_elt.
Qed.

Lemma grid_points_bounds (m : R) (num : Z) (a : float64) :
  (0 <= m)%R -> In a (grid_points m num) ->
  exists r, a = Fin r /\ (0 <= r <= m)%R.
Proof.
  intros Hm Ha. unfold grid_points in Ha.
  apply in_map_iff in Ha. destruct Ha as (i & <- & Hi). apply in_seq in Hi.
  eexists; split; [reflexivity|].
  pose proof (pos_INR i) as Hi0.
  pose proof (grid_step_nonneg m num Hm) as Hstep.
  split; [apply Rmult_le_pos; assumption|].
  unfold grid_step in *.
  destruct (Z.ltb_spec 1 num) as [Hnum | Hnum].
  - assert (Hc : (0 < IZR (num - 1))%R) by (apply IZR_lt; lia).
    assert (Hic : (INR i <= IZR (num - 1))%R).
    { rewrite <- INR_to_nat by lia. apply le_INR. lia. }
    unfold Rdiv. rewrite <- Rmult_assoc.
    apply Rmult_le_reg_r with (IZR (num - 1)); [assumption|].
    rewrite Rmult_assoc, Rinv_l by lra. nra.
  - lra.
Qed.

Lemma grid_points_head (m : R) (num : Z) :
  (1 <= num)%Z -> exists rest, grid_points m num = Fin 0 :: rest.
Proof.
  intros Hnum. unfold grid_points.
  replace (Z.to_nat num) with (S (Z.to_nat (num - 1))) by lia.
  cbn [seq map]. eexists. f_equal. f_equal. cbn [INR]. ring.
Qed.

(** X16: The optimizer returns [None] exactly when no grid pair meets the
    target: as soon as one pair does, a design is returned. *)
Theorem optimize_none_iff_infeasible
    (mat1 mat2 : material) (tg : float64) (m1 m2 : R) (steps1 steps2 : Z)
    (mu1 mu2 : float64) (g1 g2 : list float64) :
  mu_lin_from mat1 = Ok mu1 -> mu_lin_from mat2 = Ok mu2 ->
  Np.linspace (Fin 0) (Fin m1) steps1 = Ok g1 ->
  Np.linspace (Fin 0) (Fin m2) steps2 = Ok g2 ->
  F.is_finite (get_density mat1) = true ->
  F.is_finite (get_density mat2) = true ->
  (optimize_two_materials mat1 mat2 tg (Fin m1) (Fin m2) steps1 steps2
     = Ok None
   <-> forall a b, In a g1 -> In b g2 -> feasible mu1 mu2 tg a b = false)
  /\ ((exists d,
         optimize_two_materials mat1 mat2 tg (Fin m1) (Fin m2) steps1 steps2
         = Ok (Some d))
      <-> exists a b, In a g1 /\ In b g2 /\ feasible mu1 mu2 tg a b = true).
Proof.
  intros H1 H2 Hg1 Hg2 Hr1 Hr2.
  assert (Hs1 : (0 <= steps1)%Z).
  { destruct (Z.ltb_spec steps1 0) as [Hneg|]; [| assumption].
    apply (linspace_raises_iff (Fin 0) (Fin m1)) in Hneg.
    destruct Hneg as [e He]. congruence. }
  assert (Hs2 : (0 <= steps2)%Z).
  { destruct (Z.ltb_spec steps2 0) as [Hneg|]; [| assumption].
    apply (linspace_raises_iff (Fin 0) (Fin m2)) in Hneg.
    destruct Hneg as [e He]. congruence. }
  pose proof Hg1 as Hg1'. pose proof Hg2 as Hg2'.
  rewrite linspace_Fin in Hg1', Hg2' by assumption.
  injection Hg1' as <-. injection Hg2' as <-.
  assert (Hnone : (forall a b, In a (grid_points m1 steps1) ->
                     In b (grid_points m2 steps2) ->
                     feasible mu1 mu2 tg a b = false) ->
                  optimize_two_materials mat1 mat2 tg (Fin m1) (Fin m2)
                    steps1 steps2 = Ok None).
  { intros Hno.
    rewrite (optimize_eq _ _ _ _ _ _ _ _ _ _ _ H1 H2 Hg1 Hg2).
    rewrite search_infeasible by assumption. reflexivity. }
  assert (Hsome : forall a b, In a (grid_points m1 steps1) ->
                    In b (grid_points m2 steps2) ->
                    feasible mu1 mu2 tg a b = true ->
                    exists d, optimize_two_materials mat1 mat2 tg (Fin m1)
                                (Fin m2) steps1 steps2 = Ok (Some d)).
  { intros a b Ha Hb Hf.
    eapply optimize_finds_design; eassumption. }
  split; split.
  - intros Hopt a b Ha Hb.
    destruct (feasible mu1 mu2 tg a b) eqn:Hf; [| reflexivity].
    destruct (Hsome a b Ha Hb Hf) as [d Hd]. congruence.
  - exact Hnone.
  - intros [d Hd].
    destruct (optimize_design_facts mat1 mat2 tg m1 m2 steps1 steps2 mu1 mu2 d
                H1 H2 Hr1 Hr2 Hd) as (a0 & b0 & _ & Ha & Hb & Hf & _).
    exists a0, b0. auto.
  - intros (a & b & Ha & Hb & Hf). eapply Hsome; eassumption.
Qed.

Lemma optimize_none_iff_infeasible_witness :
  exists d,
    optimize_two_materials absorber absorber (Fin (3/4)) (Fin 6) (Fin 0) 3 1
    = Ok (Some d).
Proof.
  destruct (optimize_none_iff_infeasible absorber absorber (Fin (3/4)) 6 0 3 1
              (Fin (1/8)) (Fin (1/8)) (grid_points 6 3) (grid_points 0 1)
              eq_refl eq_refl
              (linspace_Fin 6 3 ltac:(lia)) (linspace_Fin 0 1 ltac:(lia))
              eq_refl eq_refl) as [_ [_ Hsome]].
  apply Hsome.
  exists (Fin 6), (Fin 0).
  rewrite grid_points_6_3, grid_points_one.
  split; [right; right; left; reflexivity|].
  split; [left; reflexivity|].
  destruct absorber_facts as (E0 & _ & _ & _ & H6).
  unfold feasible, combined_transmission. fcalc. rewrite E0. fcalc.
  reflexivity.
Defined.

(** X17: A returned design stays inside the search box: with non-negative
    thickness bounds both thicknesses are finite, between 0 and their
    maximum, and with non-negative densities the areal density lies between
    0 and density1*max1 + density2*max2. *)
Theorem optimize_design_bounds
    (mat1 mat2 : material) (tg : float64) (m1 m2 r1 r2 : R)
    (steps1 steps2 : Z) (d : design) :
  get_density mat1 = Fin r1 -> get_density mat2 = Fin r2 ->
  (0 <= m1)%R -> (0 <= m2)%R ->
  optimize_two_materials mat1 mat2 tg (Fin m1) (Fin m2) steps1 steps2
    = Ok (Some d) ->
  exists t1 t2,
    t1_cm d = Fin t1 /\ t2_cm d = Fin t2
    /\ (0 <= t1 <= m1)%R /\ (0 <= t2 <= m2)%R
    /\ areal_density_g_per_cm2 d = Fin (r1 * t1 + r2 * t2)
    /\ ((0 <= r1)%R -> (0 <= r2)%R ->
        (0 <= r1 * t1 + r2 * t2 <= r1 * m1 + r2 * m2)%R).
Proof.
  intros Hr1 Hr2 Hm1 Hm2 Hopt.
  destruct (optimize_steps_nonneg _ _ _ _ _ _ _ _ Hopt)
    as (_ & _ & [mu1 H1] & [mu2 H2]).
  destruct (optimize_design_facts mat1 mat2 tg m1 m2 steps1 steps2 mu1 mu2 d
              H1 H2 ltac:(rewrite Hr1; reflexivity)
              ltac:(rewrite Hr2; reflexivity) Hopt)
    as (a0 & b0 & -> & Ha & Hb & _).
  destruct (grid_points_bounds m1 steps1 a0 Hm1 Ha) as (t1 & -> & Ht1).
  destruct (grid_points_bounds m2 steps2 b0 Hm2 Hb) as (t2 & -> & Ht2).
  exists t1, t2. rewrite Hr1, Hr2.
  cbn [t1_cm t2_cm areal_density_g_per_cm2 candidate].
  repeat split; try tauto; nra.
Qed.

Lemma optimize_design_bounds_witness :
  exists t1 t2,
    (0 <= t1 <= 6)%R /\ (0 <= t2 <= 0)%R
    /\ Fin 3 = Fin (1 * t1 + 1 * t2).
Proof.
  destruct (optimize_design_bounds absorber absorber (Fin (3/4)) 6 0 1 1 3 1 _
              eq_refl eq_refl ltac:(lra) ltac:(lra) optimize_absorber_coarse)
    as (t1 & t2 & _ & _ & Ht1 & Ht2 & Har & _).
  exists t1, t2. repeat split; tauto || exact Har.
Defined.

Lemma leb_antisym x y : (x <=? y) = true -> (y <=? x) = true -> x = y.
Proof. ford. f_equal. lra. Qed.

Lemma add_comm (x y : float64) : x + y = y + x.
Proof. destruct x, y; cbn [F.add]; try reflexivity. f_equal. ring. Qed.

Lemma mul_comm (x y : float64) : x * y = y * x.
Proof. destruct x, y; cbn [F.mul]; try reflexivity. f_equal. ring. Qed.

Lemma feasible_swap (mu1 mu2 tg a b : float64) :
  feasible mu2 mu1 tg b a = feasible mu1 mu2 tg a b.
Proof. unfold feasible, combined_transmission. rewrite mul_comm. reflexivity. Qed.

Lemma areal_density_swap (rho1 rho2 a b : float64) :
  areal_density rho2 rho1 b a = areal_density rho1 rho2 a b.
Proof. unfold areal_density. apply add_comm. Qed.

(** X18: A target of 1 or more is met without any shielding: with finite
    coefficients, non-negative densities and bounds and at least one step
    per grid, the optimizer returns the design of zero thickness, zero areal
    density and transmission 1. *)
Theorem optimize_trivial_target
    (mat1 mat2 : material) (tg : float64) (mu1 mu2 r1 r2 m1 m2 : R)
    (steps1 steps2 : Z) :
  mu_lin_from mat1 = Ok (Fin mu1) -> mu_lin_from mat2 = Ok (Fin mu2) ->
  get_density mat1 = Fin r1 -> get_density mat2 = Fin r2 ->
  (0 <= r1)%R -> (0 <= r2)%R -> (0 <= m1)%R -> (0 <= m2)%R ->
  (1 <= steps1)%Z -> (1 <= steps2)%Z ->
  (Fin 1 <=? tg) = true ->
  optimize_two_materials mat1 mat2 tg (Fin m1) (Fin m2) steps1 steps2
  = Ok (Some {| t1_cm := Fin 0; t2_cm := Fin 0;
                areal_density_g_per_cm2 := Fin 0;
                transmission := Fin 1 |}).
Proof.
  intros H1 H2 Hr1 Hr2 Hr1p Hr2p Hm1 Hm2 Hs1 Hs2 Htg.
  destruct (optimize_spec mat1 mat2 tg m1 m2 steps1 steps2 (Fin mu1) (Fin mu2)
              H1 H2 ltac:(lia) ltac:(lia)
              ltac:(rewrite Hr1; reflexivity) ltac:(rewrite Hr2; reflexivity))
    as (st & Hst & Hinv).
  rewrite Hst. clear Hst. rewrite Hr1, Hr2 in Hinv.
  destruct (grid_points_head m1 steps1 Hs1) as [rest1 Eg1].
  destruct (grid_points_head m2 steps2 Hs2) as [rest2 Eg2].
  assert (Hf00 : feasible (Fin mu1) (Fin mu2) tg (Fin 0) (Fin 0) = true).
  { unfold feasible, combined_transmission. cbn [F.neg F.mul F.exp].
    rewrite !exp_zero_arg by ring.
    apply leb_trans with (Fin 1); [| assumption].
    cbn [F.leb]. apply Rleb_true. lra. }
  assert (H0g1 : In (Fin 0) (grid_points m1 steps1))
    by (rewrite Eg1; left; reflexivity).
  assert (H0g2 : In (Fin 0) (grid_points m2 steps2))
    by (rewrite Eg2; left; reflexivity).
  destruct Hinv as [[_ Hno] | (P1 & a0 & P2 & F1 & b0 & F2 & EP & EF & -> & _ & Hlt & Hfirst)].
  { rewrite (Hno _ _ H0g1 H0g2) in Hf00. discriminate. }
  destruct (filter_pivot_feasible _ _ _ _ _ _ _ _ EF) as [Hb0 _].
  assert (Ha0 : In a0 (grid_points m1 steps1)) by (rewrite EP; apply in_elt).
  destruct (grid_points_bounds m1 steps1 a0 Hm1 Ha0) as (ta & -> & Hta).
  destruct (grid_points_bounds m2 steps2 b0 Hm2 Hb0) as (tb & -> & Htb).
  (* the first row already holds a feasible pair of areal density 0 *)
  assert (Ea : Fin ta = Fin 0).
  { rewrite Eg1 in EP. destruct P1 as [|x P1'].
    - cbn [app] in EP. injection EP as EP _. rewrite EP. reflexivity.
    - cbn [app] in EP. injection EP as <- _.
      specialize (Hlt (Fin 0) (Fin 0) (or_introl eq_refl) H0g2 Hf00).
      unfold areal_density in Hlt. cbn [F.mul F.add F.ltb] in Hlt.
      apply Rltb_true in Hlt. exfalso. nra. }
  injection Ea as ->.
  assert (Eb : Fin tb = Fin 0).
  { rewrite Eg2 in EF. cbn [filter] in EF. rewrite Hf00 in EF.
    destruct F1 as [|x F1'].
    - cbn [app] in EF. injection EF as EF _. rewrite EF. reflexivity.
    - cbn [app] in EF. injection EF as <- _.
      specialize (Hfirst (Fin 0) (or_introl eq_refl)).
      unfold areal_density in Hfirst. cbn [F.mul F.add F.ltb] in Hfirst.
      apply Rltb_true in Hfirst. exfalso. nra. }
  injection Eb as ->.
  cbn [snd]. unfold candidate, areal_density, combined_transmission.
  cbn [F.neg F.mul F.add F.exp].
  rewrite !exp_zero_arg by ring.
  do 3 f_equal; f_equal; ring.
Qed.

Lemma optimize_trivial_target_witness :
  optimize_two_materials lead lead (Fin 1) (Fin 50) (Fin 50) 201 201
  = Ok (Some {| t1_cm := Fin 0; t2_cm := Fin 0;
                areal_density_g_per_cm2 := Fin 0;
                transmission := Fin 1 |}).
Proof.
  apply (optimize_trivial_target lead lead (Fin 1)
           (0.044 * 11.34) (0.044 * 11.34) 11.34 11.34 50 50 201 201);
    try reflexivity; try lra; try lia.
  fcalc. reflexivity.
Defined.

(** X19: Relaxing the target never costs mass: if the optimizer finds a design
    for a target, it finds one for every larger target on the same grids,
    with an areal density that is not greater. *)
Theorem optimize_monotone_in_target
    (mat1 mat2 : material) (tg tg' : float64) (m1 m2 : R)
    (steps1 steps2 : Z) (d : design) :
  F.is_finite (get_density mat1) = true ->
  F.is_finite (get_density mat2) = true ->
  (tg <=? tg') = true ->
  optimize_two_materials mat1 mat2 tg (Fin m1) (Fin m2) steps1 steps2
    = Ok (Some d) ->
  exists d',
    optimize_two_materials mat1 mat2 tg' (Fin m1) (Fin m2) steps1 steps2
      = Ok (Some d')
    /\ (areal_density_g_per_cm2 d' <=? areal_density_g_per_cm2 d) = true.
Proof.
  intros Hr1 Hr2 Htg Hopt.
  destruct (optimize_steps_nonneg _ _ _ _ _ _ _ _ Hopt)
    as (Hs1 & Hs2 & [mu1 H1] & [mu2 H2]).
  destruct (optimize_design_facts mat1 mat2 tg m1 m2 steps1 steps2 mu1 mu2 d
              H1 H2 Hr1 Hr2 Hopt) as (a0 & b0 & -> & Ha & Hb & Hf & _).
  assert (Hf' : feasible mu1 mu2 tg' a0 b0 = true)
    by (unfold feasible in *; eapply leb_trans; eassumption).
  destruct (optimize_finds_design mat1 mat2 tg' m1 m2 steps1 steps2 mu1 mu2
              a0 b0 H1 H2 Hs1 Hs2 Hr1 Hr2 Ha Hb Hf') as [d' Hd'].
  exists d'. split; [exact Hd'|].
  destruct (optimize_design_facts mat1 mat2 tg' m1 m2 steps1 steps2 mu1 mu2 d'
              H1 H2 Hr1 Hr2 Hd') as (a1 & b1 & -> & _ & _ & _ & Hmin).
  cbn [areal_density_g_per_cm2 candidate]. apply Hmin; assumption.
Qed.

Lemma optimize_monotone_in_target_witness :
  (Fin (3/4) <=? Fin 1) = true
  /\ exists d',
       optimize_two_materials absorber absorber (Fin 1) (Fin 6) (Fin 0) 3 1
         = Ok (Some d')
       /\ (areal_density_g_per_cm2 d' <=? Fin 3) = true.
Proof.
  assert (Htg : (Fin (3/4) <=? Fin 1) = true) by (fcalc; reflexivity).
  split; [exact Htg|].
  exact (optimize_monotone_in_target absorber absorber (Fin (3/4)) (Fin 1)
           6 0 3 1 _ eq_refl eq_refl Htg optimize_absorber_coarse).
Defined.

(** X20: The order of the two materials does not matter for the mass: calling
    the optimizer with the materials (and their bounds and step counts)
    swapped returns a design of the same areal density. *)
Theorem optimize_swap_materials
    (mat1 mat2 : material) (tg : float64) (m1 m2 : R)
    (steps1 steps2 : Z) (d : design) :
  F.is_finite (get_density mat1) = true ->
  F.is_finite (get_density mat2) = true ->
  optimize_two_materials mat1 mat2 tg (Fin m1) (Fin m2) steps1 steps2
    = Ok (Some d) ->
  exists d',
    optimize_two_materials mat2 mat1 tg (Fin m2) (Fin m1) steps2 steps1
      = Ok (Some d')
    /\ areal_density_g_per_cm2 d' = areal_density_g_per_cm2 d.
Proof.
  intros Hr1 Hr2 Hopt.
  destruct (optimize_steps_nonneg _ _ _ _ _ _ _ _ Hopt)
    as (Hs1 & Hs2 & [mu1 H1] & [mu2 H2]).
  destruct (optimize_design_facts mat1 mat2 tg m1 m2 steps1 steps2 mu1 mu2 d
              H1 H2 Hr1 Hr2 Hopt) as (a0 & b0 & -> & Ha & Hb & Hf & Hmin).
  assert (Hf' : feasible mu2 mu1 tg b0 a0 = true)
    by (rewrite feasible_swap; assumption).
  destruct (optimize_finds_design mat2 mat1 tg m2 m1 steps2 steps1 mu2 mu1
              b0 a0 H2 H1 Hs2 Hs1 Hr2 Hr1 Hb Ha Hf') as [d' Hd'].
  exists d'. split; [exact Hd'|].
  destruct (optimize_design_facts mat2 mat1 tg m2 m1 steps2 steps1 mu2 mu1 d'
              H2 H1 Hr2 Hr1 Hd') as (a1 & b1 & -> & Ha1 & Hb1 & Hf1 & Hmin').
  cbn [areal_density_g_per_cm2 candidate].
  apply leb_antisym.
  - rewrite <- (areal_density_swap (get_density mat1) (get_density mat2) a0 b0).
    apply Hmin'; assumption.
  - rewrite <- (areal_density_swap (get_density mat2) (get_density mat1) a1 b1).
    apply Hmin; [assumption | assumption |].
    rewrite <- feasible_swap. assumption.
Qed.

Lemma optimize_swap_materials_witness :
  exists d',
    optimize_two_materials absorber absorber (Fin (3/4)) (Fin 0) (Fin 6) 1 3
      = Ok (Some d')
    /\ areal_density_g_per_cm2 d' = Fin 3.
Proof.
  exact (optimize_swap_materials absorber absorber (Fin (3/4)) 6 0 3 1 _
           eq_refl eq_refl optimize_absorber_coarse).
Defined.

(** the program's table is precomputed without error *)
Lemma precompute_table_materials : returns (precompute_table materials).
Proof. eexists; reflexivity. Qed.

(** ** Decay chain: the right-hand side *)

(** X22: The decay chain's right-hand side returns three rates for a state
    of exactly three values, and refuses any other state with a ValueError
    (the unpacking [na, nb, nc = y]). *)
Theorem fission_prod_chain_shape
    (s_a : float64) (y : list float64) (t lambda_a lambda_b : float64) :
  (length y = 3%nat ->
   exists rates,
     fission_prod_chain s_a y t lambda_a lambda_b = Ok rates
     /\ length rates = 3%nat)
  /\ (length y <> 3%nat ->
      exists msg,
        fission_prod_chain s_a y t lambda_a lambda_b
        = Raise (ValueError msg)).
Proof.
  unfold fission_prod_chain.
  destruct y as [|a [|b [|c [|e y]]]]; cbn [length]; split; intros Hlen;
    try discriminate; try congruence;
    try (eexists; reflexivity).
  eexists; split; reflexivity.
Qed.

Lemma fission_prod_chain_shape_witness :
  (exists rates,
     fission_prod_chain (Fin 0.5) [Fin 50; Fin 0; Fin 0] (Fin 0)
       (Fin 0.10) (Fin 0.03) = Ok rates
     /\ length rates = 3%nat)
  /\ exists msg,
       fission_prod_chain (Fin 0.5) [Fin 50; Fin 0] (Fin 0)
         (Fin 0.10) (Fin 0.03) = Raise (ValueError msg).
Proof.
  split.
  - apply (fission_prod_chain_shape (Fin 0.5) [Fin 50; Fin 0; Fin 0] (Fin 0)
             (Fin 0.10) (Fin 0.03)). reflexivity.
  - apply (fission_prod_chain_shape (Fin 0.5) [Fin 50; Fin 0] (Fin 0)
             (Fin 0.10) (Fin 0.03)). cbn [length]. lia.
Defined.

(** ** Point kinetics: the right-hand side *)

Lemma broadcast2_same_length (op : float64 -> float64 -> float64)
    (xs ys : list float64) :
  length xs = length ys ->
  broadcast2 op xs ys
  = Ok (map (fun p => op (fst p) (snd p)) (combine xs ys)).
Proof.
  intros Hlen. unfold broadcast2.
  rewrite (proj2 (Nat.eqb_eq _ _) Hlen). reflexivity.
Qed.

(** X25: With as many delayed-neutron fractions and decay constants as
    precursors in the state, the right-hand side returns a vector of the
    size of the state. *)
Theorem point_kinetics_state_size
    (n : float64) (C : list float64) (t rho : float64)
    (beta_i lambda_i : list float64) (Lambda S : float64) :
  length beta_i = length C -> length lambda_i = length C ->
  exists out,
    point_kinetics (n :: C) t rho beta_i lambda_i Lambda S = Ok out
    /\ length out = length (n :: C).
Proof.
  intros Hb Hl. unfold point_kinetics.
  rewrite (broadcast2_same_length F.mul lambda_i C Hl). cbn [bind].
  rewrite broadcast2_same_length
    by (rewrite !length_map, length_combine, Hl, Hb; lia).
  cbn [bind]. eexists. split; [reflexivity|].
  cbn [length]. rewrite !length_map, !length_combine, !length_map.
  rewrite length_combine. lia.
Qed.

Lemma point_kinetics_state_size_witness :
  exists out,
    point_kinetics [Fin 1; Fin 2; Fin 3] (Fin 0) (Fin 0.002)
      [Fin 0.0012; Fin 0.0027] [Fin 0.0305; Fin 0.301]
      (Fin (1/100000)) (Fin 0) = Ok out
    /\ length out = 3%nat.
Proof.
  apply (point_kinetics_state_size (Fin 1) [Fin 2; Fin 3] (Fin 0) (Fin 0.002)
           [Fin 0.0012; Fin 0.0027] [Fin 0.0305; Fin 0.301]
           (Fin (1/100000)) (Fin 0)); reflexivity.
Defined.



(** ** Concrete runs with ties and with a default density *)

Lemma absorber_product_facts :
  (exp (- (1/8) * 3) * exp (- (1/8) * 3) <= 3/4
   /\ exp (- (1/8) * 3) * exp (- (1/8) * 6) <= 3/4
   /\ exp (- (1/8) * 6) * exp (- (1/8) * 3) <= 3/4
   /\ exp (- (1/8) * 6) * exp (- (1/8) * 6) <= 3/4)%R.
Proof.
  destruct absorber_facts as (_ & _ & H3 & _ & H6).
  pose proof (exp_pos (- (1/8) * 3)) as P3.
  pose proof (exp_pos (- (1/8) * 6)) as P6.
  repeat split; nra.
Qed.

Lemma grid_points_6_3_both :
  Np.linspace (Fin 0) (Fin 6) 3 = Ok [Fin 0; Fin 3; Fin 6].
Proof. rewrite linspace_Fin by lia. rewrite grid_points_6_3. reflexivity. Qed.

(** the absorber against itself on the grids 0, 3, 6: the pairs (0, 3) and
    (3, 0) tie at areal density 3, and the first row wins *)
Lemma optimize_absorber_square :
  optimize_two_materials absorber absorber (Fin (3/4)) (Fin 6) (Fin 6) 3 3
  = Ok (Some {| t1_cm := Fin 0; t2_cm := Fin 3;
                areal_density_g_per_cm2 := Fin 3;
                transmission := Fin (exp (- (1/8) * 3)) |}).
Proof.
  destruct absorber_facts as (E0 & H2 & H3 & H4 & H6).
  destruct absorber_product_facts as (H33 & H36 & H63 & H66).
  rewrite (optimize_eq absorber absorber _ _ _ _ _ (Fin (1/8)) (Fin (1/8))
             [Fin 0; Fin 3; Fin 6] [Fin 0; Fin 3; Fin 6])
    by (reflexivity || apply grid_points_6_3_both).
  change (get_density absorber) with (Fin 1).
  repeat (progress (search_eval; rewrite ?E0)).
  repeat f_equal; lra.
Qed.

(** the absorber with a weightless second layer: in the first row the pairs
    (0, 3) and (0, 6) tie at areal density 0, and the smaller t2 wins *)
Lemma optimize_absorber_weightless :
  optimize_two_materials absorber weightless (Fin (3/4)) (Fin 6) (Fin 6) 3 3
  = Ok (Some {| t1_cm := Fin 0; t2_cm := Fin 3;
                areal_density_g_per_cm2 := Fin 0;
                transmission := Fin (exp (- (1/8) * 3)) |}).
Proof.
  destruct absorber_facts as (E0 & H2 & H3 & H4 & H6).
  destruct absorber_product_facts as (H33 & H36 & H63 & H66).
  rewrite (optimize_eq absorber weightless _ _ _ _ _ (Fin (1/8)) (Fin (1/8))
             [Fin 0; Fin 3; Fin 6] [Fin 0; Fin 3; Fin 6])
    by (reflexivity || apply grid_points_6_3_both).
  change (get_density absorber) with (Fin 1).
  change (get_density weightless) with (Fin 0).
  repeat (progress (search_eval; rewrite ?E0)).
  repeat f_equal; lra.
Qed.

(** a material without density in front of a dense one *)
Lemma optimize_bare_dense :
  optimize_two_materials bare dense (Fin (3/4)) (Fin 6) (Fin 0) 3 1
  = Ok (Some {| t1_cm := Fin 3; t2_cm := Fin 0;
                areal_density_g_per_cm2 := Fin 3;
                transmission := Fin (exp (- (1/8) * 3)) |}).
Proof.
  destruct absorber_facts as (E0 & H2 & H3 & H4 & H6).
  rewrite (optimize_eq bare dense _ _ _ _ _ (Fin (1/8)) (Fin (1/8))
             (grid_points 6 3) (grid_points 0 1))
    by (reflexivity || (apply linspace_Fin; lia)).
  rewrite grid_points_6_3, grid_points_one.
  change (get_density bare) with (Fin 1).
  change (get_density dense) with (Fin 2).
  repeat (progress (search_eval; rewrite ?E0)).
  repeat f_equal; lra.
Qed.

Lemma absorber_feasible_3_0 :
  feasible (Fin (1/8)) (Fin (1/8)) (Fin (3/4)) (Fin 3) (Fin 0) = true.
Proof.
  destruct absorber_facts as (E0 & _ & H3 & _).
  unfold feasible, combined_transmission. fcalc. rewrite E0. fcalc.
  reflexivity.
Qed.

Lemma absorber_feasible_0_6 :
  feasible (Fin (1/8)) (Fin (1/8)) (Fin (3/4)) (Fin 0) (Fin 6) = true.
Proof.
  destruct absorber_facts as (E0 & _ & _ & _ & H6).
  unfold feasible, combined_transmission. fcalc. rewrite E0. fcalc.
  reflexivity.
Qed.

Lemma optimize_two_materials_tie_break_witness :
  (0 <= 6)%R
  /\ optimize_two_materials absorber absorber (Fin (3/4)) (Fin 6) (Fin 6) 3 3
     = Ok (Some {| t1_cm := Fin 0; t2_cm := Fin 3;
                   areal_density_g_per_cm2 := Fin 3;
                   transmission := Fin (exp (- (1/8) * 3)) |})
  /\ feasible (Fin (1/8)) (Fin (1/8)) (Fin (3/4)) (Fin 3) (Fin 0) = true
  /\ areal_density (Fin 1) (Fin 1) (Fin 3) (Fin 0) = Fin 3
  /\ (Fin 0 <=? Fin 3) = true
  /\ optimize_two_materials absorber weightless (Fin (3/4)) (Fin 6) (Fin 6)
       3 3
     = Ok (Some {| t1_cm := Fin 0; t2_cm := Fin 3;
                   areal_density_g_per_cm2 := Fin 0;
                   transmission := Fin (exp (- (1/8) * 3)) |})
  /\ feasible (Fin (1/8)) (Fin (1/8)) (Fin (3/4)) (Fin 0) (Fin 6) = true
  /\ areal_density (Fin 1) (Fin 0) (Fin 0) (Fin 6) = Fin 0
  /\ (Fin 3 <=? Fin 6) = true.
Proof.
  assert (H06 : (0 <= 6)%R) by lra.
  assert (Htie1 : areal_density (Fin 1) (Fin 1) (Fin 3) (Fin 0) = Fin 3)
    by (unfold areal_density; cbn [F.mul F.add]; f_equal; lra).
  assert (Htie2 : areal_density (Fin 1) (Fin 0) (Fin 0) (Fin 6) = Fin 0)
    by (unfold areal_density; cbn [F.mul F.add]; f_equal; lra).
  split; [exact H06|].
  split; [exact optimize_absorber_square|].
  split; [exact absorber_feasible_3_0|].
  split; [exact Htie1|].
  split.
  { (* the tie across rows: (3, 0) against the design (0, 3) *)
    exact (proj1
      (optimize_two_materials_tie_break absorber absorber (Fin (3/4))
         6 6 3 3 (Fin (1/8)) (Fin (1/8))
         [Fin 0; Fin 3; Fin 6] [Fin 0; Fin 3; Fin 6] _
         eq_refl eq_refl grid_points_6_3_both grid_points_6_3_both
         eq_refl eq_refl H06 H06 optimize_absorber_square
         (Fin 3) (Fin 0)
         (or_intror (or_introl eq_refl)) (or_introl eq_refl)
         absorber_feasible_3_0 Htie1)). }
  split; [exact optimize_absorber_weightless|].
  split; [exact absorber_feasible_0_6|].
  split; [exact Htie2|].
  (* the tie within the first row: (0, 6) against the design (0, 3) *)
  exact (proj2
    (optimize_two_materials_tie_break absorber weightless (Fin (3/4))
       6 6 3 3 (Fin (1/8)) (Fin (1/8))
       [Fin 0; Fin 3; Fin 6] [Fin 0; Fin 3; Fin 6] _
       eq_refl eq_refl grid_points_6_3_both grid_points_6_3_both
       eq_refl eq_refl H06 H06 optimize_absorber_weightless
       (Fin 0) (Fin 6)
       (or_introl eq_refl) (or_intror (or_intror (or_introl eq_refl)))
       absorber_feasible_0_6 Htie2) eq_refl).
Defined.

Lemma finer_grid_not_worse_from_end_points_witness :
  (2 <= 4)%Z /\ (1 <= 1)%Z /\ (2 <= 2)%Z
  /\ optimize_two_materials absorber absorber (Fin (3/4)) (Fin 6) (Fin 0) 2 1
     = Ok (Some {| t1_cm := Fin 6; t2_cm := Fin 0;
                   areal_density_g_per_cm2 := Fin 6;
                   transmission := Fin (exp (- (1/8) * 6)) |})
  /\ optimize_two_materials absorber absorber (Fin (3/4)) (Fin 6) (Fin 0) 4 1
     = Ok (Some {| t1_cm := Fin 4; t2_cm := Fin 0;
                   areal_density_g_per_cm2 := Fin 4;
                   transmission := Fin (exp (- (1/8) * 4)) |})
  /\ (Fin 4 <=? Fin 6) = true.
Proof.
  assert (H24 : (2 <= 4)%Z) by lia.
  assert (H11 : (1 <= 1)%Z) by lia.
  assert (H22 : (2 <= 2)%Z) by lia.
  assert (H12 : (1 <= 2)%Z) by lia.
  split; [exact H24 | split; [exact H11 | split; [exact H22|]]].
  split; [exact optimize_absorber_two_steps|].
  split; [exact optimize_absorber_fine|].
  exact (finer_grid_not_worse_from_end_points absorber absorber (Fin (3/4))
           6 0 2 1 4 1 _ _ eq_refl eq_refl H24 H11
           (or_introl H22) (or_introl H12)
           optimize_absorber_two_steps optimize_absorber_fine).
Defined.

Lemma default_density_witness :
  single_material_solution bare (Fin (3/4))
  = Ok (Fin (- ln (3/4) / (1/8)), Fin (- ln (3/4) / (1/8)),
        transmission_exponential (Fin (1/8)) (Fin (- ln (3/4) / (1/8))))
  /\ optimize_two_materials bare dense (Fin (3/4)) (Fin 6) (Fin 0) 3 1
     = Ok (Some {| t1_cm := Fin 3; t2_cm := Fin 0;
                   areal_density_g_per_cm2 := Fin 3;
                   transmission := Fin (exp (- (1/8) * 3)) |})
  /\ exists d,
       optimize_two_materials bare dense (Fin (3/4)) (Fin 6) (Fin 0) 3 1
         = Ok (Some d)
       /\ areal_density_g_per_cm2 d = t1_cm d + Fin 2 * t2_cm d
       /\ (areal_density_g_per_cm2 d <=? Fin 3 + Fin 2 * Fin 0) = true.
Proof.
  destruct (default_density bare dense (Fin (1/8)) (Fin (1/8))
              eq_refl eq_refl eq_refl) as (Hsingle & _ & Hfound).
  split; [| split].
  - rewrite Hsingle, required_thickness_Fin by lra. reflexivity.
  - exact optimize_bare_dense.
  - apply (Hfound (Fin (3/4)) 6%R 0%R 3%Z 1%Z [Fin 0; Fin 3; Fin 6] [Fin 0]
             (Fin 3) (Fin 0)).
    + reflexivity.
    + exact grid_points_6_3_both.
    + rewrite linspace_Fin by lia. rewrite grid_points_one. reflexivity.
    + right; left; reflexivity.
    + left; reflexivity.
    + exact absorber_feasible_3_0.
Defined.
